(** * tenant-api: the tenant handlers of [pkg/api/v1] and the generated
      tenant predicates, embedded and verified.

    The handlers of [pkg/api/v1/tenants.go] are written as programs in a
    small state-and-trace monad over the collaborators they call (the
    echo context helpers, the sqlboiler model methods, the pubsub client).
    The collaborators live elsewhere in the repository and are interfaces
    here; an in-memory repository gives them a concrete reading.  The
    predicate combinators of the generated [tenant] package are functions
    on ent's [sql.Selector]. *)

From Stdlib Require Import ZArith List String Ascii Bool Lia PeanoNat.
From Stdlib Require Import DecimalString.
Import ListNotations.

Set Implicit Arguments.
Set Warnings "-register-all".
Open Scope string_scope.
Open Scope list_scope.

(** ** Go values shared by the packages *)

(** Go's [error] values, as far as the handlers tell them apart:
    the two sentinels they test with [errors.Is], plain errors, and
    wrapped errors, which [errors.Is] looks through. *)
Inductive error : Type :=
| ErrUUIDNotFound
| ErrNoRows
| ErrorString (msg : string)
| Wrap (msg : string) (inner : error).

Fixpoint error_eqb (a b : error) : bool :=
  match a, b with
  | ErrUUIDNotFound, ErrUUIDNotFound => true
  | ErrNoRows, ErrNoRows => true
  | ErrorString x, ErrorString y => String.eqb x y
  | Wrap x a', Wrap y b' => String.eqb x y && error_eqb a' b'
  | _, _ => false
  end.

(** [errors.Is(err, target)]: [err] or an error it wraps is [target]. *)
Fixpoint errorsIs (err target : error) : bool :=
  error_eqb err target ||
  match err with
  | Wrap _ inner => errorsIs inner target
  | _ => false
  end.

(** A Go call that returns [(T, error)] with a nil error on success. *)
Inductive result (A : Type) : Type :=
| Ok (a : A)
| Err (e : error).
Arguments Ok {A} a.
Arguments Err {A} e.

Definition errOf {A} (r : result A) : option error :=
  match r with Ok _ => None | Err e => Some e end.

(** [time.Time], as a count of clock ticks. *)
Definition Time := Z.

(** ** [volatiletech/null]: nullable columns *)
Module null.

Record String := { String_ : string; Valid : bool }.
Record Time_ := { Time : Z; TimeValid : bool }.

Definition StringFrom (s : string) : String :=
  {| String_ := s; Valid := true |}.

Definition TimeFrom (t : Z) : Time_ := {| Time := t; TimeValid := true |}.

(** The zero values: not valid. *)
Definition NoString : String := {| String_ := ""; Valid := false |}.
Definition NoTime : Time_ := {| Time := 0%Z; TimeValid := false |}.

(** [Ptr]: nil when the value is null, else a pointer to it. *)
Definition Ptr (s : String) : option string :=
  if Valid s then Some (String_ s) else None.

Definition TimePtr (t : Time_) : option Z :=
  if TimeValid t then Some (Time t) else None.

End null.

(** ** [internal/models]: the tenant row *)
Module models.

(** Modelled from the spec: the [Tenant] struct is declared elsewhere in
    the repository.  Its fields are those the handlers read and write,
    with the optional description of the data model (section 3). *)
Record Tenant := {
  ID : string;
  Name : string;
  Description : null.String;
  ParentTenantID : null.String;
  CreatedAt : Time;
  UpdatedAt : Time;
  DeletedAt : null.Time_
}.

(** [&models.Tenant{Name: name}]: every other field has its zero value. *)
Definition withName (name : string) : Tenant :=
  {| ID := ""; Name := name; Description := null.NoString;
     ParentTenantID := null.NoString;
     CreatedAt := 0%Z; UpdatedAt := 0%Z; DeletedAt := null.NoTime |}.

Definition setName (t : Tenant) (name : string) : Tenant :=
  {| ID := ID t; Name := name; Description := Description t;
     ParentTenantID := ParentTenantID t;
     CreatedAt := CreatedAt t; UpdatedAt := UpdatedAt t;
     DeletedAt := DeletedAt t |}.

Definition setParentTenantID (t : Tenant) (p : null.String) : Tenant :=
  {| ID := ID t; Name := Name t; Description := Description t;
     ParentTenantID := p;
     CreatedAt := CreatedAt t; UpdatedAt := UpdatedAt t;
     DeletedAt := DeletedAt t |}.

(** The query mods the handlers build: the [TenantWhere] helpers they
    use and the paging mods of [qm]. *)
Inductive QueryMod : Type :=
| TenantWhere_ID_EQ (id : string)
| TenantWhere_ParentTenantID_EQ (p : null.String)
| TenantWhere_ParentTenantID_IsNull
| qm_Limit (n : nat)
| qm_Offset (n : nat).

End models.

(** ** [internal/pubsub]: change events *)
Module pubsub.

(** Modelled from the spec: the message type is declared elsewhere in
    the repository; section 6 gives what each message carries. *)
Record Message := {
  actor : string;
  resourceURN : string;
  additionalURNs : list string
}.

(** Modelled from the spec: [NewTenantURN] is declared elsewhere in the
    repository; section 6 gives the format
    [urn:infratographer:tenant:<id>]. *)
Definition NewTenantURN (id : string) : string :=
  ("urn:infratographer:tenant:" ++ id)%string.

Inductive EventKind := Create | Update | Delete.

End pubsub.

(** ** [pkg/api/v1]: the tenant handlers *)
Module api.

(** *** Outward representation *)

(** The outward tenant: [parentTenantId] and [deletedAt] are pointers
    and are left out of the JSON when nil. *)
Record tenant := {
  ID : string;
  Name : string;
  ParentTenantID : option string;
  CreatedAt : Time;
  UpdatedAt : Time;
  DeletedAt : option Time
}.

(** [tenantSlice] is [[]*tenant]: a slot holds a pointer or nil. *)
Definition tenantSlice := list (option tenant).

Definition v1Tenant (t : models.Tenant) : tenant :=
  {| ID := models.ID t;
     Name := models.Name t;
     ParentTenantID := null.Ptr (models.ParentTenantID t);
     CreatedAt := models.CreatedAt t;
     UpdatedAt := models.UpdatedAt t;
     DeletedAt := null.TimePtr (models.DeletedAt t) |}.

(** [s[i] = x] on a slice; the loop below never leaves the range. *)
Fixpoint store {A} (s : list A) (i : nat) (x : A) : list A :=
  match s, i with
  | [], _ => []
  | _ :: rest, O => x :: rest
  | y :: rest, S j => y :: store rest j x
  end.

(** The body of [for i, t := range ts], from index [i] on. *)
Fixpoint v1TenantSlice_range (i : nat) (ts : list models.Tenant)
         (tenants : tenantSlice) : tenantSlice :=
  match ts with
  | [] => tenants
  | t :: rest =>
      v1TenantSlice_range (S i) rest (store tenants i (Some (v1Tenant t)))
  end.

(** [make(tenantSlice, len(ts))] gives [len(ts)] nil slots, which the
    loop then fills. *)
Definition v1TenantSlice (ts : list models.Tenant) : tenantSlice :=
  v1TenantSlice_range 0 ts (repeat None (List.length ts)).

(** *** Requests and responses *)

(** The request payloads ([Name string] on create, [Name *string] on
    update) and the pagination parameters are declared elsewhere in the
    repository. *)
Record createTenantRequest := { createName : string }.
Record updateTenantRequest := { updateName : option string }.

(** Modelled from the spec: pagination is by limit and offset
    (section 4.2). *)
Record Pagination := { Limit : nat; Offset : nat }.

(** What a handler hands back to echo: one of the [v1...Response]
    helpers it called, the error it returned without writing a
    response, or nil with nothing written. *)
Inductive Response : Type :=
| v1BadRequestResponse (err : error)
| v1InternalServerErrorResponse (err : error)
| v1TenantNotFoundResponse (err : error)
| v1TenantCreatedResponse (t : models.Tenant)
| v1TenantGetResponse (t : models.Tenant)
| v1TenantsResponse (ts : list models.Tenant) (p : Pagination)
| returnErr (err : error)
| returnNil.

(** Modelled from the spec: the response helpers are declared elsewhere
    in the repository; section 6 gives the status of each.  A handler
    that returns nil without writing answers 200; the status of a
    returned error is up to the server's error handler. *)
Definition statusCode (r : Response) : option nat :=
  match r with
  | v1BadRequestResponse _ => Some 400
  | v1InternalServerErrorResponse _ => Some 500
  | v1TenantNotFoundResponse _ => Some 404
  | v1TenantCreatedResponse _ => Some 201
  | v1TenantGetResponse _ => Some 200
  | v1TenantsResponse _ _ => Some 200
  | returnErr _ => None
  | returnNil => Some 200
  end.

Definition isSuccess (r : Response) : bool :=
  match statusCode r with
  | Some n => Nat.leb 200 n && Nat.ltb n 300
  | None => false
  end.

(** *** Collaborators *)

(** The echo context and the helpers of the package that read it. *)
Class Transport (Ctx : Type) := {
  parseUUID : Ctx -> string -> string * option error;
  bindCreate : Ctx -> result createTenantRequest;
  validateCreate : createTenantRequest -> option error;
  bindUpdate : Ctx -> result updateTenantRequest;
  validateUpdate : updateTenantRequest -> option error;
  parsePagination : Ctx -> Pagination;
  queryMods : Pagination -> list models.QueryMod;
  Actor : Ctx -> string
}.

(** The sqlboiler methods on [models.Tenant] and on the tenants query,
    run against a database of type [DB]. *)
Class Repository (DB : Type) := {
  Insert : models.Tenant -> DB -> result models.Tenant * DB;
  One : list models.QueryMod -> DB -> result models.Tenant;
  All : list models.QueryMod -> DB -> result (list models.Tenant);
  Update : models.Tenant -> DB -> result models.Tenant * DB;
  Delete : models.Tenant -> bool -> DB -> option error * DB
}.

(** The message builders of [internal/pubsub] and the publishing
    client [r.pubsub], with a message bus of type [Bus]. *)
Class Publisher (Bus : Type) := {
  NewTenantMessage :
    string -> string -> list string -> option pubsub.Message * option error;
  UpdateTenantMessage :
    string -> string -> option pubsub.Message * option error;
  DeleteTenantMessage :
    string -> string -> option pubsub.Message * option error;
  Publish : pubsub.EventKind -> string -> string ->
            option pubsub.Message -> Bus -> option error * Bus
}.

(** *** Effects *)

(** What a handler does to the outside world, in order. *)
Inductive Effect : Type :=
| LogError (msg : string) (err : error)
| DBInsert (t : models.Tenant) (res : option error)
| DBOne (mods : list models.QueryMod) (res : option error)
| DBAll (mods : list models.QueryMod) (res : option error)
| DBUpdate (t : models.Tenant) (res : option error)
| DBDelete (t : models.Tenant) (hardDelete : bool) (res : option error)
| Published (kind : pubsub.EventKind) (topic scope : string)
            (msg : option pubsub.Message) (res : option error).

Record World (DB Bus : Type) := { db : DB; bus : Bus }.

(** A handler step: from a world to a value, the effects performed,
    and the world after. *)
Definition M (DB Bus A : Type) : Type :=
  World DB Bus -> A * list Effect * World DB Bus.

Definition ret {DB Bus A} (a : A) : M DB Bus A := fun w => (a, [], w).

Definition bind {DB Bus A B} (m : M DB Bus A) (k : A -> M DB Bus B)
  : M DB Bus B :=
  fun w =>
    let '(a, tr1, w1) := m w in
    let '(b, tr2, w2) := k a w1 in
    (b, tr1 ++ tr2, w2).

Declare Scope handler_scope.
Delimit Scope handler_scope with handler.
Notation "x <- m ;; k" := (bind m (fun x => k))
  (at level 100, m at next level, right associativity) : handler_scope.
Notation "m ;; k" := (bind m (fun _ => k))
  (at level 100, right associativity) : handler_scope.

(** *** The handlers *)

Section Handlers.

Context {Ctx DB Bus : Type}.
Context {transport : Transport Ctx}.
Context {repository : Repository DB}.
Context {publisher : Publisher Bus}.

Local Open Scope handler_scope.
Local Abbreviation H := (M DB Bus).

(** [r.logger.Error(msg, zap.Error(err))] *)
Definition logError (msg : string) (err : error) : H unit :=
  fun w => (tt, [LogError msg err], w).

(** [if err != nil { r.logger.Error(msg, zap.Error(err)) }] *)
Definition logIfError (msg : string) (err : option error) : H unit :=
  match err with
  | Some e => logError msg e
  | None => ret tt
  end.

(** [t.Insert(ctx, r.db, boil.Infer())]: on success [t] holds the
    row as inserted. *)
Definition insert (t : models.Tenant) : H (result models.Tenant) :=
  fun w =>
    let '(r, d) := Insert t (db w) in
    (r, [DBInsert t (errOf r)], {| db := d; bus := bus w |}).

(** [models.Tenants(mods...).One(ctx, r.db)] *)
Definition one (mods : list models.QueryMod) : H (result models.Tenant) :=
  fun w => let r := One mods (db w) in (r, [DBOne mods (errOf r)], w).

(** [models.Tenants(mods...).All(ctx, r.db)] *)
Definition all (mods : list models.QueryMod)
  : H (result (list models.Tenant)) :=
  fun w => let r := All mods (db w) in (r, [DBAll mods (errOf r)], w).

(** [t.Update(ctx, r.db, boil.Infer())] *)
Definition update (t : models.Tenant) : H (result models.Tenant) :=
  fun w =>
    let '(r, d) := Update t (db w) in
    (r, [DBUpdate t (errOf r)], {| db := d; bus := bus w |}).

(** [t.Delete(ctx, r.db, hardDelete)] *)
Definition delete (t : models.Tenant) (hardDelete : bool)
  : H (option error) :=
  fun w =>
    let '(e, d) := Delete t hardDelete (db w) in
    (e, [DBDelete t hardDelete e], {| db := d; bus := bus w |}).

(** [r.pubsub.PublishCreate], [PublishUpdate] and [PublishDelete] *)
Definition publish (kind : pubsub.EventKind) (topic scope : string)
           (msg : option pubsub.Message) : H (option error) :=
  fun w =>
    let '(e, b) := Publish kind topic scope msg (bus w) in
    (e, [Published kind topic scope msg e], {| db := db w; bus := b |}).

Definition PublishCreate := publish pubsub.Create.
Definition PublishUpdate := publish pubsub.Update.
Definition PublishDelete := publish pubsub.Delete.

Definition tenantCreate (c : Ctx) : H Response :=
  let '(tenantID, err) := parseUUID c "id" in
  let afterParse : H Response :=
    match bindCreate c with
    | Err e =>
        logError "failed to bind tenant create request" e ;;
        ret (v1BadRequestResponse e)
    | Ok createRequest =>
        match validateCreate createRequest with
        | Some e =>
            logError "invalid create request" e ;;
            ret (v1BadRequestResponse e)
        | None =>
            let t := models.withName (createName createRequest) in
            let '(t, additionalURNs) :=
              if negb (String.eqb tenantID "")
              then (models.setParentTenantID t (null.StringFrom tenantID),
                    [pubsub.NewTenantURN tenantID])
              else (t, []) in
            r <- insert t ;;
            match r with
            | Err e =>
                logError "error inserting tenant" e ;;
                ret (v1InternalServerErrorResponse e)
            | Ok t =>
                let actor := Actor c in
                let '(msg, err) :=
                  NewTenantMessage actor
                    (pubsub.NewTenantURN (models.ID t)) additionalURNs in
                logIfError "failed to create tenant message" err ;;
                perr <- PublishCreate "tenants" "global" msg ;;
                logIfError "failed to publish tenant message" perr ;;
                ret (v1TenantCreatedResponse t)
            end
        end
    end in
  match err with
  | Some e =>
      if negb (errorsIs e ErrUUIDNotFound)
      then logError "invalid tenant uuid" e ;;
           ret (v1BadRequestResponse e)
      else afterParse
  | None => afterParse
  end.

Definition tenantList (c : Ctx) : H Response :=
  let pagination := parsePagination c in
  let query (mods : list models.QueryMod) : H Response :=
    let mods := mods ++ queryMods pagination in
    r <- all mods ;;
    match r with
    | Err e =>
        logError "failed to query tenants" e ;;
        ret (v1InternalServerErrorResponse e)
    | Ok ts => ret (v1TenantsResponse ts pagination)
    end in
  match parseUUID c "id" with
  | (tenantID, None) =>
      query [models.TenantWhere_ParentTenantID_EQ
               (null.StringFrom tenantID)]
  | (_, Some e) =>
      if errorsIs e ErrUUIDNotFound
      then query [models.TenantWhere_ParentTenantID_IsNull]
      else ret (v1BadRequestResponse e)
  end.

Definition tenantGet (c : Ctx) : H Response :=
  match parseUUID c "id" with
  | (_, Some e) => ret (v1BadRequestResponse e)
  | (tenantID, None) =>
      let mods := [models.TenantWhere_ID_EQ tenantID] in
      r <- one mods ;;
      match r with
      | Err e =>
          if errorsIs e ErrNoRows
          then ret (v1TenantNotFoundResponse e)
          else logError "failed to query tenants" e ;;
               ret (v1InternalServerErrorResponse e)
      | Ok t => ret (v1TenantGetResponse t)
      end
  end.

Definition tenantUpdate (c : Ctx) : H Response :=
  match parseUUID c "id" with
  | (_, Some e) => ret (v1BadRequestResponse e)
  | (tenantID, None) =>
      match bindUpdate c with
      | Err e =>
          logError "failed to bind update tenant request" e ;;
          ret (v1BadRequestResponse e)
      | Ok payload =>
          match validateUpdate payload with
          | Some e =>
              logError "invalid update tenant request" e ;;
              ret (v1BadRequestResponse e)
          | None =>
              let mods := [models.TenantWhere_ID_EQ tenantID] in
              r <- one mods ;;
              match r with
              | Err e =>
                  if errorsIs e ErrNoRows
                  then ret (v1TenantNotFoundResponse e)
                  else logError "failed to query tenants" e ;;
                       ret (v1InternalServerErrorResponse e)
              | Ok t =>
                  let t :=
                    match updateName payload with
                    | Some name => models.setName t name
                    | None => t
                    end in
                  r <- update t ;;
                  match r with
                  | Err e =>
                      logError "failed to update tenant" e ;;
                      ret (v1InternalServerErrorResponse e)
                  | Ok t =>
                      let actor := Actor c in
                      let '(msg, err) :=
                        UpdateTenantMessage actor
                          (pubsub.NewTenantURN (models.ID t)) in
                      logIfError
                        "failed to create, update tenant message" err ;;
                      perr <- PublishUpdate "tenants" "global" msg ;;
                      logIfError
                        "failed to publish, update tenant message" perr ;;
                      ret (v1TenantGetResponse t)
                  end
              end
          end
      end
  end.

Definition tenantDelete (c : Ctx) : H Response :=
  match parseUUID c "id" with
  | (_, Some e) => ret (v1BadRequestResponse e)
  | (tenantID, None) =>
      let mods := [models.TenantWhere_ID_EQ tenantID] in
      r <- one mods ;;
      match r with
      | Err e =>
          if errorsIs e ErrNoRows
          then ret (v1TenantNotFoundResponse e)
          else logError "failed to query tenants" e ;;
               ret (v1InternalServerErrorResponse e)
      | Ok t =>
          derr <- delete t false ;;
          match derr with
          | Some e =>
              logError "failed to delete tenant" e ;;
              ret (returnErr e)
          | None =>
              let actor := Actor c in
              let '(msg, err) :=
                DeleteTenantMessage actor
                  (pubsub.NewTenantURN (models.ID t)) in
              logIfError "failed to create, delete tenant message" err ;;
              perr <- PublishDelete "tenants" "global" msg ;;
              logIfError
                "failed to publish, delete tenant message" perr ;;
              ret returnNil
          end
      end
  end.

End Handlers.

End api.

(** ** Reading the run of a handler *)
Module api_trace.

Import api.

Definition isPublished (e : Effect) : bool :=
  match e with Published _ _ _ _ _ => true | _ => false end.

(** The events submitted to the publisher, delivered or not. *)
Definition published (tr : list Effect) : list Effect := filter isPublished tr.

(** An insert, update or delete that failed. *)
Definition persistFailed (tr : list Effect) : bool :=
  existsb (fun e => match e with
                    | DBInsert _ (Some _) | DBUpdate _ (Some _)
                    | DBDelete _ _ (Some _) => true
                    | _ => false
                    end) tr.

(** An insert, update or delete that succeeded. *)
Definition persistSucceeded (tr : list Effect) : bool :=
  existsb (fun e => match e with
                    | DBInsert _ None | DBUpdate _ None
                    | DBDelete _ _ None => true
                    | _ => false
                    end) tr.

(** The writes a handler asked of the repository. *)
Definition isWrite (e : Effect) : bool :=
  match e with
  | DBInsert _ _ | DBUpdate _ _ | DBDelete _ _ _ => true
  | _ => false
  end.

Definition writes (tr : list Effect) : list Effect := filter isWrite tr.

(** Every failed publish is logged. *)
Definition publishFailuresLogged (tr : list Effect) : Prop :=
  forall k topic scope m e,
    In (Published k topic scope m (Some e)) tr ->
    exists msg, In (LogError msg e) tr.

(** The parts of a handler's run. *)
Definition response {A W} (run : A * list Effect * W) : A := fst (fst run).
Definition trace {A W} (run : A * list Effect * W) : list Effect :=
  snd (fst run).
Definition after {A W} (run : A * list Effect * W) : W := snd run.

(** Events follow persistence in a handler: no event after a failed
    write; after a successful one, a success response, exactly one
    event, and a log entry for a failed publish. *)
Definition eventsFollowPersistence {Ctx DB Bus}
           (h : Ctx -> M DB Bus Response) : Prop :=
  forall c w,
    let '(r, tr, _) := h c w in
    (persistFailed tr = true -> published tr = []) /\
    (persistSucceeded tr = true ->
       isSuccess r = true /\
       List.length (published tr) = 1 /\
       publishFailuresLogged tr).

(** In store [d], an update refreshes [updated_at] to a time later than
    that of any row the store returns (spec 4.2). *)
Definition stampsLater {DB} {repository : Repository DB} (d : DB) : Prop :=
  forall mods told t t' d',
    One mods d = Ok told ->
    Update t d = (Ok t', d') ->
    (models.UpdatedAt told < models.UpdatedAt t')%Z.

(** A failing insert, update or query that is not a missing row is
    logged and answered with the generic internal-server-error response,
    the lookup of [tenantDelete] included: only its delete is not. *)
Definition answers500 {Ctx DB Bus} (h : Ctx -> M DB Bus Response) : Prop :=
  forall c w r tr w' e,
    h c w = (r, tr, w') ->
    (exists t, In (DBInsert t (Some e)) tr) \/
    (exists t, In (DBUpdate t (Some e)) tr) \/
    (exists mods, In (DBAll mods (Some e)) tr) \/
    (exists mods, In (DBOne mods (Some e)) tr /\ errorsIs e ErrNoRows = false) ->
    r = v1InternalServerErrorResponse e /\
    statusCode r = Some 500 /\
    exists msg, In (LogError msg e) tr.

(** A lookup that finds no row is answered NotFound (404), with no
    write and no event. *)
Definition answers404 {Ctx DB Bus} (h : Ctx -> M DB Bus Response) : Prop :=
  forall c w r tr w' mods e,
    h c w = (r, tr, w') ->
    In (DBOne mods (Some e)) tr ->
    errorsIs e ErrNoRows = true ->
    r = v1TenantNotFoundResponse e /\
    statusCode r = Some 404 /\
    writes tr = [] /\
    published tr = [] /\
    w' = w.

Definition isDB (e : Effect) : bool :=
  match e with
  | LogError _ _ | Published _ _ _ _ _ => false
  | _ => true
  end.

(** A request answered 400 reached neither the repository nor the
    publisher. *)
Definition rejectsEarly {Ctx DB Bus} (h : Ctx -> M DB Bus Response) : Prop :=
  forall c w r tr w' e,
    h c w = (r, tr, w') ->
    r = v1BadRequestResponse e ->
    filter isDB tr = [] /\ published tr = [] /\ w' = w.

End api_trace.

(** ** An in-memory tenant repository *)
Module memdb.

(** Modelled from the spec: the tenants table and the sqlboiler methods on
    it are elsewhere in the repository.  Section 4.2 gives the repository
    operations (find, getByID, insert, update, softDelete) and section 3
    the rows; rows are kept in insertion order, and a logical clock
    stamps every write. *)
Record DB := {
  rows : list models.Tenant;
  clock : Z;
  serial : nat;
  writeFault : option error
}.

Definition empty : DB :=
  {| rows := []; clock := 0%Z; serial := 0; writeFault := None |}.

(** Modelled from the spec: a referential-integrity failure
    (ConstraintViolation, section 7). *)
Definition ErrConstraintViolation : error :=
  ErrorString "constraint violation".

(** Modelled from the spec: ids are assigned by the store and are unique
    (section 3). *)
Definition genID (n : nat) : string :=
  ("t_" ++ NilZero.string_of_uint (Nat.to_uint n))%string.

Definition live (t : models.Tenant) : bool :=
  negb (null.TimeValid (models.DeletedAt t)).

Definition hasID (id : string) (t : models.Tenant) : bool :=
  String.eqb (models.ID t) id.

(** A [TenantWhere] mod holds of a row; paging mods hold of every row. *)
Definition whereMatches (m : models.QueryMod) (t : models.Tenant) : bool :=
  match m with
  | models.TenantWhere_ID_EQ id => hasID id t
  | models.TenantWhere_ParentTenantID_EQ p =>
      if null.Valid p
      then null.Valid (models.ParentTenantID t) &&
           String.eqb (null.String_ (models.ParentTenantID t)) (null.String_ p)
      else negb (null.Valid (models.ParentTenantID t))
  | models.TenantWhere_ParentTenantID_IsNull =>
      negb (null.Valid (models.ParentTenantID t))
  | models.qm_Limit _ | models.qm_Offset _ => true
  end.

(** The last [qm.Limit] and [qm.Offset] among the mods. *)
Fixpoint limitOf (mods : list models.QueryMod) : option nat :=
  match mods with
  | [] => None
  | m :: rest =>
      match limitOf rest, m with
      | Some n, _ => Some n
      | None, models.qm_Limit n => Some n
      | None, _ => None
      end
  end.

Fixpoint offsetOf (mods : list models.QueryMod) : nat :=
  match mods with
  | [] => 0
  | m :: rest =>
      match m with
      | models.qm_Offset n =>
          if existsb (fun m' => match m' with
                                | models.qm_Offset _ => true
                                | _ => false
                                end) rest
          then offsetOf rest else n
      | _ => offsetOf rest
      end
  end.

(** Modelled from the spec: find.  The rows that are not soft-deleted
    and satisfy every predicate, in insertion order (sections 3, 4.2). *)
Definition selected (mods : list models.QueryMod) (d : DB)
  : list models.Tenant :=
  filter (fun t => live t && forallb (fun m => whereMatches m t) mods)
         (rows d).

(** The offset/limit window of a result. *)
Definition page (mods : list models.QueryMod) (l : list models.Tenant)
  : list models.Tenant :=
  let l := skipn (offsetOf mods) l in
  match limitOf mods with
  | Some n => firstn n l
  | None => l
  end.

Definition All (mods : list models.QueryMod) (d : DB)
  : result (list models.Tenant) :=
  Ok (page mods (selected mods d)).

(** Modelled from the spec: getByID fails with NotFound when no row
    matches, soft-deleted rows included (section 4.2). *)
Definition One (mods : list models.QueryMod) (d : DB)
  : result models.Tenant :=
  match page mods (selected mods d) with
  | t :: _ => Ok t
  | [] => Err ErrNoRows
  end.

Definition stamp (t : models.Tenant) (id : string) (now : Z) : models.Tenant :=
  {| models.ID := id; models.Name := models.Name t;
     models.Description := models.Description t;
     models.ParentTenantID := models.ParentTenantID t;
     models.CreatedAt := now; models.UpdatedAt := now;
     models.DeletedAt := models.DeletedAt t |}.

Definition touch (t : models.Tenant) (now : Z) : models.Tenant :=
  {| models.ID := models.ID t; models.Name := models.Name t;
     models.Description := models.Description t;
     models.ParentTenantID := models.ParentTenantID t;
     models.CreatedAt := models.CreatedAt t; models.UpdatedAt := now;
     models.DeletedAt := models.DeletedAt t |}.

Definition markDeleted (t : models.Tenant) (now : Z) : models.Tenant :=
  {| models.ID := models.ID t; models.Name := models.Name t;
     models.Description := models.Description t;
     models.ParentTenantID := models.ParentTenantID t;
     models.CreatedAt := models.CreatedAt t;
     models.UpdatedAt := models.UpdatedAt t;
     models.DeletedAt := null.TimeFrom now |}.

(** Modelled from the spec: insert assigns the id and the timestamps and
    persists; it fails with ConstraintViolation when the parent id is set
    and references no existing tenant, or when the id is taken. *)
Definition Insert (t : models.Tenant) (d : DB) : result models.Tenant * DB :=
  match writeFault d with
  | Some e => (Err e, d)
  | None =>
      let id := if String.eqb (models.ID t) ""
                then genID (serial d) else models.ID t in
      let p := models.ParentTenantID t in
      if null.Valid p && negb (existsb (hasID (null.String_ p)) (rows d))
      then (Err ErrConstraintViolation, d)
      else if existsb (hasID id) (rows d)
      then (Err ErrConstraintViolation, d)
      else
        let now := (clock d + 1)%Z in
        let t' := stamp t id now in
        (Ok t', {| rows := rows d ++ [t']; clock := now;
                   serial := S (serial d); writeFault := None |})
  end.

(** Modelled from the spec: update writes the supplied fields of the row
    with the given id and refreshes [updated_at]; it fails with NotFound
    when the id is absent. *)
Definition Update (t : models.Tenant) (d : DB) : result models.Tenant * DB :=
  match writeFault d with
  | Some e => (Err e, d)
  | None =>
      if existsb (hasID (models.ID t)) (rows d)
      then
        let now := (clock d + 1)%Z in
        let t' := touch t now in
        (Ok t', {| rows := map (fun r => if hasID (models.ID t) r
                                         then t' else r) (rows d);
                   clock := now; serial := serial d; writeFault := None |})
      else (Err ErrNoRows, d)
  end.

(** Modelled from the spec: softDelete sets [deleted_at] and fails with
    NotFound when the id is absent or already deleted; a hard delete
    removes the row. *)
Definition Delete (t : models.Tenant) (hardDelete : bool) (d : DB)
  : option error * DB :=
  match writeFault d with
  | Some e => (Some e, d)
  | None =>
      if existsb (fun r => hasID (models.ID t) r && live r) (rows d)
      then
        let now := (clock d + 1)%Z in
        let rows' :=
          if hardDelete
          then filter (fun r => negb (hasID (models.ID t) r)) (rows d)
          else map (fun r => if hasID (models.ID t) r && live r
                             then markDeleted r now else r) (rows d) in
        (None, {| rows := rows'; clock := now;
                  serial := serial d; writeFault := None |})
      else (Some ErrNoRows, d)
  end.

#[global] Instance repository : api.Repository DB := {|
  api.Insert := Insert;
  api.One := One;
  api.All := All;
  api.Update := Update;
  api.Delete := Delete
|}.

(** No row is stamped later than the clock. *)
Definition wf (d : DB) : Prop :=
  Forall (fun r => (models.UpdatedAt r <= clock d)%Z) (rows d).

End memdb.

(** ** Scripted collaborators *)
Module script.

(** A request, given by what the context helpers read from it. *)
Record Request := {
  pathID : string * option error;
  createBody : result api.createTenantRequest;
  updateBody : result api.updateTenantRequest;
  pagination : api.Pagination;
  actor : string
}.

(** Modelled from the spec: a request without a name fails validation
    (section 4.3, step 1). *)
Definition ErrNameRequired : error := ErrorString "name is required".

Definition validateCreate (r : api.createTenantRequest) : option error :=
  if String.eqb (api.createName r) "" then Some ErrNameRequired else None.

Definition validateUpdate (r : api.updateTenantRequest) : option error :=
  match api.updateName r with
  | Some name => if String.eqb name "" then Some ErrNameRequired else None
  | None => None
  end.

#[global] Instance transport : api.Transport Request := {|
  api.parseUUID := fun c _ => pathID c;
  api.bindCreate := createBody;
  api.validateCreate := validateCreate;
  api.bindUpdate := updateBody;
  api.validateUpdate := validateUpdate;
  api.parsePagination := pagination;
  api.queryMods := fun p =>
    [models.qm_Limit (api.Limit p); models.qm_Offset (api.Offset p)];
  api.Actor := actor
|}.

(** Modelled from the spec: a message carries the actor, the resource URN
    and the additional URNs (section 6). *)
Definition message (a urn : string) (urns : list string)
  : option pubsub.Message * option error :=
  (Some {| pubsub.actor := a; pubsub.resourceURN := urn;
           pubsub.additionalURNs := urns |}, None).

(** A bus that keeps what it delivered, and refuses when it is down. *)
Record Bus := {
  down : bool;
  delivered : list (pubsub.EventKind * pubsub.Message)
}.

Definition ErrBusDown : error := ErrorString "publish failed".

Definition Publish (kind : pubsub.EventKind) (topic scope : string)
           (msg : option pubsub.Message) (b : Bus) : option error * Bus :=
  if down b then (Some ErrBusDown, b)
  else match msg with
       | Some m => (None, {| down := false;
                             delivered := delivered b ++ [(kind, m)] |})
       | None => (Some (ErrorString "nil message"), b)
       end.

#[global] Instance publisher : api.Publisher Bus := {|
  api.NewTenantMessage := message;
  api.UpdateTenantMessage := fun a urn => message a urn [];
  api.DeleteTenantMessage := fun a urn => message a urn [];
  api.Publish := Publish
|}.

(** A publisher that fails throughout: no message can be built and
    nothing can be delivered. *)
Definition ErrNoMessage : error := ErrorString "message not built".

Definition failingPublisher : api.Publisher Bus := {|
  api.NewTenantMessage := fun _ _ _ => (None, Some ErrNoMessage);
  api.UpdateTenantMessage := fun _ _ => (None, Some ErrNoMessage);
  api.DeleteTenantMessage := fun _ _ => (None, Some ErrNoMessage);
  api.Publish := fun _ _ _ _ b => (Some ErrBusDown, b)
|}.

End script.

(** ** [entgo.io/ent/dialect/sql]: selectors and predicates *)
Module sql.

(** A value compared against a column. *)
Inductive Value : Type :=
| VString (s : string)
| VTime (t : Time).

Inductive Op := OpEQ | OpNEQ | OpGT | OpGTE | OpLT | OpLTE.

(** A [*sql.Predicate].  [And], [Or] and [Not] keep the pointers they
    are given, and [Selector.Where] may hand them a nil one: those
    arguments are options. *)
Inductive Predicate : Type :=
| PCompare (op : Op) (col : string) (v : Value)
| PIn (col : string) (vs : list Value)
| PNotIn (col : string) (vs : list Value)
| PContains (col : string) (sub : string)
| PHasPrefix (col : string) (pre : string)
| PHasSuffix (col : string) (suf : string)
| PEqualFold (col : string) (v : string)
| PContainsFold (col : string) (sub : string)
| PIsNull (col : string)
| PNotNull (col : string)
| PAnd (a : Predicate) (b : option Predicate)
| POr (a : Predicate) (b : option Predicate)
| PNot (a : option Predicate).

(** The part of a [*sql.Selector] the tenant predicates touch: the table
    selected from, the WHERE predicate, and the two flags that [Or()]
    and [Not()] raise for the next [Where]. *)
Record Selector := {
  from : string;
  where_ : option Predicate;
  or_ : bool;
  not_ : bool
}.

(** The selector of a new query on a table. *)
Definition Select (table : string) : Selector :=
  {| from := table; where_ := None; or_ := false; not_ := false |}.

Definition Clone (s : Selector) : Selector :=
  {| from := from s; where_ := where_ s; or_ := or_ s; not_ := not_ s |}.

(** [SetP] sets the predicate and clears the selector's flags. *)
Definition SetP (p : option Predicate) (s : Selector) : Selector :=
  {| from := from s; where_ := p; or_ := false; not_ := false |}.

Definition P (s : Selector) : option Predicate := where_ s.

Definition Selector_Or (s : Selector) : Selector :=
  {| from := from s; where_ := where_ s; or_ := true; not_ := not_ s |}.

Definition Selector_Not (s : Selector) : Selector :=
  {| from := from s; where_ := where_ s; or_ := or_ s; not_ := true |}.

(** [Where] sets or appends the predicate: negated when [Not()] was
    called, joined by OR when [Or()] was called, by AND otherwise. *)
Definition Where (p : option Predicate) (s : Selector) : Selector :=
  let p := if not_ s then Some (PNot p) else p in
  match where_ s with
  | None =>
      {| from := from s; where_ := p; or_ := or_ s; not_ := false |}
  | Some w =>
      if or_ s
      then {| from := from s; where_ := Some (POr w p);
              or_ := false; not_ := false |}
      else {| from := from s; where_ := Some (PAnd w p);
              or_ := or_ s; not_ := false |}
  end.

Definition FieldEQ (name : string) (v : Value) (s : Selector) : Selector :=
  Where (Some (PCompare OpEQ name v)) s.
Definition FieldNEQ (name : string) (v : Value) (s : Selector) : Selector :=
  Where (Some (PCompare OpNEQ name v)) s.
Definition FieldGT (name : string) (v : Value) (s : Selector) : Selector :=
  Where (Some (PCompare OpGT name v)) s.
Definition FieldGTE (name : string) (v : Value) (s : Selector) : Selector :=
  Where (Some (PCompare OpGTE name v)) s.
Definition FieldLT (name : string) (v : Value) (s : Selector) : Selector :=
  Where (Some (PCompare OpLT name v)) s.
Definition FieldLTE (name : string) (v : Value) (s : Selector) : Selector :=
  Where (Some (PCompare OpLTE name v)) s.
Definition FieldIn (name : string) (vs : list Value) (s : Selector)
  : Selector := Where (Some (PIn name vs)) s.
Definition FieldNotIn (name : string) (vs : list Value) (s : Selector)
  : Selector := Where (Some (PNotIn name vs)) s.
Definition FieldContains (name sub : string) (s : Selector) : Selector :=
  Where (Some (PContains name sub)) s.
Definition FieldHasPrefix (name pre : string) (s : Selector) : Selector :=
  Where (Some (PHasPrefix name pre)) s.
Definition FieldHasSuffix (name suf : string) (s : Selector) : Selector :=
  Where (Some (PHasSuffix name suf)) s.
Definition FieldEqualFold (name v : string) (s : Selector) : Selector :=
  Where (Some (PEqualFold name v)) s.
Definition FieldContainsFold (name sub : string) (s : Selector) : Selector :=
  Where (Some (PContainsFold name sub)) s.
Definition FieldIsNull (name : string) (s : Selector) : Selector :=
  Where (Some (PIsNull name)) s.
Definition FieldNotNull (name : string) (s : Selector) : Selector :=
  Where (Some (PNotNull name)) s.

(** *** What a predicate selects *)

(** SQL's three truth values; a row is selected when the WHERE
    predicate is true of it. *)
Inductive Truth := TrueT | FalseT | Unknown.

Definition tand (a b : Truth) : Truth :=
  match a, b with
  | FalseT, _ | _, FalseT => FalseT
  | TrueT, TrueT => TrueT
  | _, _ => Unknown
  end.

Definition tor (a b : Truth) : Truth :=
  match a, b with
  | TrueT, _ | _, TrueT => TrueT
  | FalseT, FalseT => FalseT
  | _, _ => Unknown
  end.

Definition tnot (a : Truth) : Truth :=
  match a with
  | TrueT => FalseT
  | FalseT => TrueT
  | Unknown => Unknown
  end.

Definition ofBool (b : bool) : Truth := if b then TrueT else FalseT.

Definition nullable (s : null.String) : option Value :=
  option_map VString (null.Ptr s).

(** The value of a column of the tenants table in a row; [None] is
    SQL's NULL. *)
Definition column (col : string) (t : models.Tenant) : option Value :=
  if String.eqb col "id" then Some (VString (models.ID t))
  else if String.eqb col "created_at" then Some (VTime (models.CreatedAt t))
  else if String.eqb col "updated_at" then Some (VTime (models.UpdatedAt t))
  else if String.eqb col "name" then Some (VString (models.Name t))
  else if String.eqb col "description"
       then nullable (models.Description t)
  else if String.eqb col "parent_tenant_id"
       then nullable (models.ParentTenantID t)
  else None.

Definition valueCompare (a b : Value) : option comparison :=
  match a, b with
  | VString x, VString y => Some (String.compare x y)
  | VTime x, VTime y => Some (Z.compare x y)
  | _, _ => None
  end.

Definition opHolds (op : Op) (c : comparison) : bool :=
  match op, c with
  | OpEQ, Eq => true
  | OpNEQ, Lt | OpNEQ, Gt => true
  | OpGT, Gt => true
  | OpGTE, Gt | OpGTE, Eq => true
  | OpLT, Lt => true
  | OpLTE, Lt | OpLTE, Eq => true
  | _, _ => false
  end.

Definition valueEqb (a b : Value) : bool :=
  match valueCompare a b with
  | Some Eq => true
  | _ => false
  end.

Definition lowerAscii (c : ascii) : ascii :=
  let n := nat_of_ascii c in
  if Nat.leb 65 n && Nat.leb n 90 then ascii_of_nat (n + 32) else c.

Fixpoint lower (s : string) : string :=
  match s with
  | EmptyString => EmptyString
  | String c rest => String (lowerAscii c) (lower rest)
  end.

Fixpoint contains (sub s : string) : bool :=
  prefix sub s ||
  match s with
  | EmptyString => false
  | String _ rest => contains sub rest
  end.

Fixpoint hasSuffix (suf s : string) : bool :=
  String.eqb suf s ||
  match s with
  | EmptyString => false
  | String _ rest => hasSuffix suf rest
  end.

(** A test on a string column: unknown on NULL. *)
Definition onString (col : string) (t : models.Tenant)
           (test : string -> bool) : Truth :=
  match column col t with
  | Some (VString x) => ofBool (test x)
  | _ => Unknown
  end.

(** The truth value of a predicate on a row.  [None]: the predicate
    holds a nil pointer, which is dereferenced when the query is built,
    so there is no query to run. *)
Fixpoint eval (p : Predicate) (t : models.Tenant) : option Truth :=
  let arg (q : option Predicate) : option Truth :=
    match q with
    | Some q' => eval q' t
    | None => None
    end in
  match p with
  | PCompare op col v =>
      Some match column col t with
           | Some x => match valueCompare x v with
                       | Some c => ofBool (opHolds op c)
                       | None => Unknown
                       end
           | None => Unknown
           end
  | PIn col vs =>
      Some match column col t with
           | Some x => ofBool (existsb (valueEqb x) vs)
           | None => Unknown
           end
  | PNotIn col vs =>
      Some match column col t with
           | Some x => ofBool (negb (existsb (valueEqb x) vs))
           | None => Unknown
           end
  | PContains col sub => Some (onString col t (contains sub))
  | PHasPrefix col pre => Some (onString col t (prefix pre))
  | PHasSuffix col suf => Some (onString col t (hasSuffix suf))
  | PEqualFold col v =>
      Some (onString col t (fun x => String.eqb (lower x) (lower v)))
  | PContainsFold col sub =>
      Some (onString col t (fun x => contains (lower sub) (lower x)))
  | PIsNull col =>
      Some match column col t with Some _ => FalseT | None => TrueT end
  | PNotNull col =>
      Some match column col t with Some _ => TrueT | None => FalseT end
  | PAnd a b =>
      match eval a t, arg b with
      | Some x, Some y => Some (tand x y)
      | _, _ => None
      end
  | POr a b =>
      match eval a t, arg b with
      | Some x, Some y => Some (tor x y)
      | _, _ => None
      end
  | PNot a => option_map tnot (arg a)
  end.

Definition isTrue (v : Truth) : bool :=
  match v with TrueT => true | _ => false end.

(** Whether the selector's query returns the row: every row when there
    is no WHERE predicate. *)
Definition matches (s : Selector) (t : models.Tenant) : option bool :=
  match where_ s with
  | None => Some true
  | Some p => option_map isTrue (eval p t)
  end.

End sql.

(** ** [internal/ent/generated/predicate] *)
Module predicate.

(** [predicate.Tenant] is a function on a [*sql.Selector]: a predicate acts on the
    selector it is given, which is returned here as the selector after
    the call. *)
Definition Tenant := sql.Selector -> sql.Selector.

End predicate.

(** ** [internal/ent/generated/tenant]: the generated predicates

    The field predicates and the three combinators.  The four edge
    predicates ([HasParent], [HasChildren] and their [With] forms) build
    their condition in [sqlgraph] and are not part of this development. *)
Module tenant.

(** The column names: the generated constants, as the doc comments of
    the predicates spell them. *)
Definition Table := "tenants".
Definition FieldID := "id".
Definition FieldCreatedAt := "created_at".
Definition FieldUpdatedAt := "updated_at".
Definition FieldName := "name".
Definition FieldDescription := "description".
Definition FieldParentTenantID := "parent_tenant_id".

Definition ID (id : string) : predicate.Tenant :=
  sql.FieldEQ FieldID (sql.VString id).
Definition IDEQ (id : string) : predicate.Tenant :=
  sql.FieldEQ FieldID (sql.VString id).
Definition IDNEQ (id : string) : predicate.Tenant :=
  sql.FieldNEQ FieldID (sql.VString id).
Definition IDIn (ids : list string) : predicate.Tenant :=
  sql.FieldIn FieldID (map sql.VString ids).
Definition IDNotIn (ids : list string) : predicate.Tenant :=
  sql.FieldNotIn FieldID (map sql.VString ids).
Definition IDGT (id : string) : predicate.Tenant :=
  sql.FieldGT FieldID (sql.VString id).
Definition IDGTE (id : string) : predicate.Tenant :=
  sql.FieldGTE FieldID (sql.VString id).
Definition IDLT (id : string) : predicate.Tenant :=
  sql.FieldLT FieldID (sql.VString id).
Definition IDLTE (id : string) : predicate.Tenant :=
  sql.FieldLTE FieldID (sql.VString id).
Definition CreatedAt (v : Time) : predicate.Tenant :=
  sql.FieldEQ FieldCreatedAt (sql.VTime v).
Definition UpdatedAt (v : Time) : predicate.Tenant :=
  sql.FieldEQ FieldUpdatedAt (sql.VTime v).
Definition Name (v : string) : predicate.Tenant :=
  sql.FieldEQ FieldName (sql.VString v).
Definition Description (v : string) : predicate.Tenant :=
  sql.FieldEQ FieldDescription (sql.VString v).
Definition ParentTenantID (v : string) : predicate.Tenant :=
  sql.FieldEQ FieldParentTenantID (sql.VString v).
Definition CreatedAtEQ (v : Time) : predicate.Tenant :=
  sql.FieldEQ FieldCreatedAt (sql.VTime v).
Definition CreatedAtNEQ (v : Time) : predicate.Tenant :=
  sql.FieldNEQ FieldCreatedAt (sql.VTime v).
Definition CreatedAtIn (vs : list Time) : predicate.Tenant :=
  sql.FieldIn FieldCreatedAt (map sql.VTime vs).
Definition CreatedAtNotIn (vs : list Time) : predicate.Tenant :=
  sql.FieldNotIn FieldCreatedAt (map sql.VTime vs).
Definition CreatedAtGT (v : Time) : predicate.Tenant :=
  sql.FieldGT FieldCreatedAt (sql.VTime v).
Definition CreatedAtGTE (v : Time) : predicate.Tenant :=
  sql.FieldGTE FieldCreatedAt (sql.VTime v).
Definition CreatedAtLT (v : Time) : predicate.Tenant :=
  sql.FieldLT FieldCreatedAt (sql.VTime v).
Definition CreatedAtLTE (v : Time) : predicate.Tenant :=
  sql.FieldLTE FieldCreatedAt (sql.VTime v).
Definition UpdatedAtEQ (v : Time) : predicate.Tenant :=
  sql.FieldEQ FieldUpdatedAt (sql.VTime v).
Definition UpdatedAtNEQ (v : Time) : predicate.Tenant :=
  sql.FieldNEQ FieldUpdatedAt (sql.VTime v).
Definition UpdatedAtIn (vs : list Time) : predicate.Tenant :=
  sql.FieldIn FieldUpdatedAt (map sql.VTime vs).
Definition UpdatedAtNotIn (vs : list Time) : predicate.Tenant :=
  sql.FieldNotIn FieldUpdatedAt (map sql.VTime vs).
Definition UpdatedAtGT (v : Time) : predicate.Tenant :=
  sql.FieldGT FieldUpdatedAt (sql.VTime v).
Definition UpdatedAtGTE (v : Time) : predicate.Tenant :=
  sql.FieldGTE FieldUpdatedAt (sql.VTime v).
Definition UpdatedAtLT (v : Time) : predicate.Tenant :=
  sql.FieldLT FieldUpdatedAt (sql.VTime v).
Definition UpdatedAtLTE (v : Time) : predicate.Tenant :=
  sql.FieldLTE FieldUpdatedAt (sql.VTime v).
Definition NameEQ (v : string) : predicate.Tenant :=
  sql.FieldEQ FieldName (sql.VString v).
Definition NameNEQ (v : string) : predicate.Tenant :=
  sql.FieldNEQ FieldName (sql.VString v).
Definition NameIn (vs : list string) : predicate.Tenant :=
  sql.FieldIn FieldName (map sql.VString vs).
Definition NameNotIn (vs : list string) : predicate.Tenant :=
  sql.FieldNotIn FieldName (map sql.VString vs).
Definition NameGT (v : string) : predicate.Tenant :=
  sql.FieldGT FieldName (sql.VString v).
Definition NameGTE (v : string) : predicate.Tenant :=
  sql.FieldGTE FieldName (sql.VString v).
Definition NameLT (v : string) : predicate.Tenant :=
  sql.FieldLT FieldName (sql.VString v).
Definition NameLTE (v : string) : predicate.Tenant :=
  sql.FieldLTE FieldName (sql.VString v).
Definition NameContains (v : string) : predicate.Tenant :=
  sql.FieldContains FieldName v.
Definition NameHasPrefix (v : string) : predicate.Tenant :=
  sql.FieldHasPrefix FieldName v.
Definition NameHasSuffix (v : string) : predicate.Tenant :=
  sql.FieldHasSuffix FieldName v.
Definition NameEqualFold (v : string) : predicate.Tenant :=
  sql.FieldEqualFold FieldName v.
Definition NameContainsFold (v : string) : predicate.Tenant :=
  sql.FieldContainsFold FieldName v.
Definition DescriptionEQ (v : string) : predicate.Tenant :=
  sql.FieldEQ FieldDescription (sql.VString v).
Definition DescriptionNEQ (v : string) : predicate.Tenant :=
  sql.FieldNEQ FieldDescription (sql.VString v).
Definition DescriptionIn (vs : list string) : predicate.Tenant :=
  sql.FieldIn FieldDescription (map sql.VString vs).
Definition DescriptionNotIn (vs : list string) : predicate.Tenant :=
  sql.FieldNotIn FieldDescription (map sql.VString vs).
Definition DescriptionGT (v : string) : predicate.Tenant :=
  sql.FieldGT FieldDescription (sql.VString v).
Definition DescriptionGTE (v : string) : predicate.Tenant :=
  sql.FieldGTE FieldDescription (sql.VString v).
Definition DescriptionLT (v : string) : predicate.Tenant :=
  sql.FieldLT FieldDescription (sql.VString v).
Definition DescriptionLTE (v : string) : predicate.Tenant :=
  sql.FieldLTE FieldDescription (sql.VString v).
Definition DescriptionContains (v : string) : predicate.Tenant :=
  sql.FieldContains FieldDescription v.
Definition DescriptionHasPrefix (v : string) : predicate.Tenant :=
  sql.FieldHasPrefix FieldDescription v.
Definition DescriptionHasSuffix (v : string) : predicate.Tenant :=
  sql.FieldHasSuffix FieldDescription v.
Definition DescriptionIsNil : predicate.Tenant :=
  sql.FieldIsNull FieldDescription.
Definition DescriptionNotNil : predicate.Tenant :=
  sql.FieldNotNull FieldDescription.
Definition DescriptionEqualFold (v : string) : predicate.Tenant :=
  sql.FieldEqualFold FieldDescription v.
Definition DescriptionContainsFold (v : string) : predicate.Tenant :=
  sql.FieldContainsFold FieldDescription v.
Definition ParentTenantIDEQ (v : string) : predicate.Tenant :=
  sql.FieldEQ FieldParentTenantID (sql.VString v).
Definition ParentTenantIDNEQ (v : string) : predicate.Tenant :=
  sql.FieldNEQ FieldParentTenantID (sql.VString v).
Definition ParentTenantIDIn (vs : list string) : predicate.Tenant :=
  sql.FieldIn FieldParentTenantID (map sql.VString vs).
Definition ParentTenantIDNotIn (vs : list string) : predicate.Tenant :=
  sql.FieldNotIn FieldParentTenantID (map sql.VString vs).
Definition ParentTenantIDGT (v : string) : predicate.Tenant :=
  sql.FieldGT FieldParentTenantID (sql.VString v).
Definition ParentTenantIDGTE (v : string) : predicate.Tenant :=
  sql.FieldGTE FieldParentTenantID (sql.VString v).
Definition ParentTenantIDLT (v : string) : predicate.Tenant :=
  sql.FieldLT FieldParentTenantID (sql.VString v).
Definition ParentTenantIDLTE (v : string) : predicate.Tenant :=
  sql.FieldLTE FieldParentTenantID (sql.VString v).
Definition ParentTenantIDContains (v : string) : predicate.Tenant :=
  sql.FieldContains FieldParentTenantID v.
Definition ParentTenantIDHasPrefix (v : string) : predicate.Tenant :=
  sql.FieldHasPrefix FieldParentTenantID v.
Definition ParentTenantIDHasSuffix (v : string) : predicate.Tenant :=
  sql.FieldHasSuffix FieldParentTenantID v.
Definition ParentTenantIDIsNil : predicate.Tenant :=
  sql.FieldIsNull FieldParentTenantID.
Definition ParentTenantIDNotNil : predicate.Tenant :=
  sql.FieldNotNull FieldParentTenantID.
Definition ParentTenantIDEqualFold (v : string) : predicate.Tenant :=
  sql.FieldEqualFold FieldParentTenantID v.
Definition ParentTenantIDContainsFold (v : string) : predicate.Tenant :=
  sql.FieldContainsFold FieldParentTenantID v.

(** [And] runs the predicates on a clone of the selector whose predicate
    was cleared, and appends what the clone collected. *)
Definition And (predicates : list predicate.Tenant) : predicate.Tenant :=
  fun s =>
    let s1 := sql.SetP None (sql.Clone s) in
    let s1 := fold_left (fun s1 p => p s1) predicates s1 in
    sql.Where (sql.P s1) s.

(** The body of [for i, p := range predicates] in [Or], from index [i]. *)
Fixpoint Or_range (i : nat) (predicates : list predicate.Tenant)
         (s1 : sql.Selector) : sql.Selector :=
  match predicates with
  | [] => s1
  | p :: rest =>
      let s1 := if Nat.ltb 0 i then sql.Selector_Or s1 else s1 in
      Or_range (S i) rest (p s1)
  end.

Definition Or (predicates : list predicate.Tenant) : predicate.Tenant :=
  fun s =>
    let s1 := sql.SetP None (sql.Clone s) in
    let s1 := Or_range 0 predicates s1 in
    sql.Where (sql.P s1) s.

Definition Not (p : predicate.Tenant) : predicate.Tenant :=
  fun s => p (sql.Selector_Not s).

(** The query on the tenants table with the given predicates applied,
    as [TenantQuery.Where(ps...)] builds it. *)
Definition query (ps : list predicate.Tenant) : sql.Selector :=
  fold_left (fun s p => p s) ps (sql.Select Table).

(** A predicate that adds one condition through [Where]: [c] when the
    selector's [Not()] flag is down, [cn] when it is up. *)
Definition adds (p : predicate.Tenant) (c cn : sql.Predicate) : Prop :=
  forall s,
    p s = sql.Where (Some (if sql.not_ s then cn else c))
                    {| sql.from := sql.from s; sql.where_ := sql.where_ s;
                       sql.or_ := sql.or_ s; sql.not_ := false |}.

Definition conditional (p : predicate.Tenant) : Prop :=
  exists c cn, adds p c cn.

(** The selector with its [Not()] flag down. *)
Definition lowered (s : sql.Selector) : sql.Selector :=
  {| sql.from := sql.from s; sql.where_ := sql.where_ s;
     sql.or_ := sql.or_ s; sql.not_ := false |}.

(** The conjunction (disjunction) that [Where] builds up when conditions
    arrive one after the other. *)
Definition andStep (acc : option sql.Predicate) (c : sql.Predicate)
  : option sql.Predicate :=
  Some match acc with
       | None => c
       | Some w => sql.PAnd w (Some c)
       end.

Definition orStep (acc : option sql.Predicate) (c : sql.Predicate)
  : option sql.Predicate :=
  Some match acc with
       | None => c
       | Some w => sql.POr w (Some c)
       end.

(** [p] adds the condition [c] to a selector whose [Not()] flag is
    down. *)
Definition addsPlain (p : predicate.Tenant) (c : sql.Predicate) : Prop :=
  exists cn, adds p c cn.

(** Two predicates are the same filter when, on every selector, the
    queries they lead to return the same rows (or neither can be
    built). *)
Definition sameFilter (p q : predicate.Tenant) : Prop :=
  forall s t, sql.matches (p s) t = sql.matches (q s) t.

End tenant.

(** ** Reading a list request against the in-memory repository *)
Module listing.

Import api.

(** The parent a list request asks for: [Some None] for the roots,
    [Some (Some P)] for the children of [P], [None] when the path id is
    malformed. *)
Definition requested {Ctx} {transport : Transport Ctx} (c : Ctx)
  : option (option string) :=
  match parseUUID c "id" with
  | (id, None) => Some (Some id)
  | (_, Some e) => if errorsIs e ErrUUIDNotFound then Some None else None
  end.

Definition parentIs (P : option string) (t : models.Tenant) : bool :=
  match P, null.Ptr (models.ParentTenantID t) with
  | None, None => true
  | Some p, Some q => String.eqb q p
  | _, _ => false
  end.

(** The tenants of parent [P] that are not soft-deleted, in the order of
    the store. *)
Definition family (P : option string) (d : memdb.DB) : list models.Tenant :=
  filter (fun t => memdb.live t && parentIs P t) (memdb.rows d).

Definition isPaging (m : models.QueryMod) : bool :=
  match m with
  | models.qm_Limit _ | models.qm_Offset _ => true
  | _ => false
  end.

(** The response holds exactly the tenants of the store whose parent is
    [P]. *)
Definition listsExactly (r : Response) (d : memdb.DB) (P : option string)
  : Prop :=
  exists ts p,
    r = v1TenantsResponse ts p /\
    forall t, In t ts <->
              In t (memdb.rows d) /\ null.Ptr (models.ParentTenantID t) = P.

End listing.

(** ** A small deployment: requests and stores to run the handlers on *)
Module scenario.

Definition request (id : string * option error) : script.Request :=
  {| script.pathID := id;
     script.createBody := Err (ErrorString "no body");
     script.updateBody := Err (ErrorString "no body");
     script.pagination := {| api.Limit := 10; api.Offset := 0 |};
     script.actor := "urn:infratographer:user:alice" |}.

(** [POST /tenants] and [POST /tenants/{parent}] with a name. *)
Definition create (id : string * option error) (name : string)
  : script.Request :=
  {| script.pathID := id;
     script.createBody := Ok {| api.createName := name |};
     script.updateBody := Err (ErrorString "no body");
     script.pagination := {| api.Limit := 10; api.Offset := 0 |};
     script.actor := "urn:infratographer:user:alice" |}.

Definition noID : string * option error := ("", Some ErrUUIDNotFound).
Definition withID (id : string) : string * option error := (id, None).

(** [PATCH /tenants/{id}] with a new name. *)
Definition rename (id name : string) : script.Request :=
  {| script.pathID := withID id;
     script.createBody := Err (ErrorString "no body");
     script.updateBody := Ok {| api.updateName := Some name |};
     script.pagination := {| api.Limit := 10; api.Offset := 0 |};
     script.actor := "urn:infratographer:user:alice" |}.

(** [GET /tenants] and [GET /tenants/{parent}] with paging parameters. *)
Definition listing (id : string * option error) (limit offset : nat)
  : script.Request :=
  {| script.pathID := id;
     script.createBody := Err (ErrorString "no body");
     script.updateBody := Err (ErrorString "no body");
     script.pagination := {| api.Limit := limit; api.Offset := offset |};
     script.actor := "urn:infratographer:user:alice" |}.

Definition busUp : script.Bus :=
  {| script.down := false; script.delivered := [] |}.

Definition world (d : memdb.DB) : api.World memdb.DB script.Bus :=
  {| api.db := d; api.bus := busUp |}.

(** The rows of the scenario of section 8: the root [acme] and its
    child [acme-east], then a second root and a second child. *)
Definition acme : models.Tenant :=
  {| models.ID := "t_0"; models.Name := "acme";
     models.Description := null.NoString;
     models.ParentTenantID := null.NoString;
     models.CreatedAt := 1%Z; models.UpdatedAt := 1%Z;
     models.DeletedAt := null.NoTime |}.

Definition acmeEast : models.Tenant :=
  {| models.ID := "t_1"; models.Name := "acme-east";
     models.Description := null.NoString;
     models.ParentTenantID := null.StringFrom "t_0";
     models.CreatedAt := 2%Z; models.UpdatedAt := 2%Z;
     models.DeletedAt := null.NoTime |}.

Definition globex : models.Tenant :=
  {| models.ID := "t_2"; models.Name := "globex";
     models.Description := null.NoString;
     models.ParentTenantID := null.NoString;
     models.CreatedAt := 3%Z; models.UpdatedAt := 3%Z;
     models.DeletedAt := null.NoTime |}.

Definition acmeWest : models.Tenant :=
  {| models.ID := "t_3"; models.Name := "acme-west";
     models.Description := null.NoString;
     models.ParentTenantID := null.StringFrom "t_0";
     models.CreatedAt := 4%Z; models.UpdatedAt := 4%Z;
     models.DeletedAt := null.NoTime |}.

Definition store (rs : list models.Tenant) : memdb.DB :=
  {| memdb.rows := rs; memdb.clock := Z.of_nat (List.length rs);
     memdb.serial := List.length rs; memdb.writeFault := None |}.

Definition db1 : memdb.DB := store [acme].
Definition db2 : memdb.DB := store [acme; acmeEast].
Definition db4 : memdb.DB := store [acme; acmeEast; globex; acmeWest].

(** [db4] after [acme-east] was soft-deleted. *)
Definition acmeEastDeleted : models.Tenant := memdb.markDeleted acmeEast 5.

Definition db5 : memdb.DB :=
  {| memdb.rows := [acme; acmeEastDeleted; globex; acmeWest];
     memdb.clock := 5%Z; memdb.serial := 4; memdb.writeFault := None |}.

(** [db2] with its writes refused, as by a store that lost its
    connection between two statements. *)
Definition ErrConnection : error := ErrorString "connection lost".

Definition db2Faulty : memdb.DB :=
  {| memdb.rows := [acme; acmeEast]; memdb.clock := 2%Z;
     memdb.serial := 2; memdb.writeFault := Some ErrConnection |}.

End scenario.

(** ** The shape of a handler's run *)
Module api_shape.

Import api api_trace.

(** A handler that only reads: no write, no event, the world as it
    was. *)
Definition readOnly {Ctx DB Bus} (h : Ctx -> M DB Bus Response) : Prop :=
  forall c w,
    writes (trace (h c w)) = [] /\
    published (trace (h c w)) = [] /\
    after (h c w) = w.

Definition isInsert (e : Effect) : bool :=
  match e with DBInsert _ _ => true | _ => false end.

Definition isUpdate (e : Effect) : bool :=
  match e with DBUpdate _ _ => true | _ => false end.

Definition isSoftDelete (e : Effect) : bool :=
  match e with DBDelete _ false _ => true | _ => false end.

(** A handler that asks the repository for one write at most, and only
    for a write of the given kind. *)
Definition writesOnce {Ctx DB Bus} (kind : Effect -> bool)
           (h : Ctx -> M DB Bus Response) : Prop :=
  forall c w,
    List.length (writes (trace (h c w))) <= 1 /\
    forallb kind (writes (trace (h c w))) = true.

(** Wherever an event stands in the trace of a handler, a write has
    succeeded before it and it is the only event; it is of the given
    kind, on the topic [tenants] and the scope [global]. *)
Definition publishesAfterWrite {Ctx DB Bus} (kind : pubsub.EventKind)
           (h : Ctx -> M DB Bus Response) : Prop :=
  forall c w pre e post,
    trace (h c w) = pre ++ e :: post ->
    isPublished e = true ->
    persistSucceeded pre = true /\
    published pre = [] /\
    published post = [] /\
    exists msg res, e = Published kind "tenants" "global" msg res.

(** A message builder hands back a message for the actor and the
    resource it was called with. *)
Definition buildsFor
           (build : string -> string -> option pubsub.Message * option error)
  : Prop :=
  forall a urn m e,
    build a urn = (Some m, e) ->
    pubsub.actor m = a /\ pubsub.resourceURN m = urn.

(** Two runs agree on everything but the bus: the response, the store
    after, and the calls made to the repository. *)
Definition sameOutcome {DB Bus1 Bus2}
           (r1 : Response * list Effect * World DB Bus1)
           (r2 : Response * list Effect * World DB Bus2) : Prop :=
  response r1 = response r2 /\
  db (after r1) = db (after r2) /\
  filter isDB (trace r1) = filter isDB (trace r2).

End api_shape.

(** ** What a tenant predicate selects *)
Module tenant_sem.

(** The condition that a predicate puts on a new query of a table. *)
Definition condition (p : predicate.Tenant) (table : string)
  : option sql.Predicate :=
  sql.where_ (p (sql.Select table)).

(** The truth value of that condition on a row: true when the predicate
    puts no condition, [None] when the query cannot be built. *)
Definition truth (p : predicate.Tenant) (table : string) (t : models.Tenant)
  : option sql.Truth :=
  match condition p table with
  | None => Some sql.TrueT
  | Some c => sql.eval c t
  end.

Definition lift2 (f : sql.Truth -> sql.Truth -> sql.Truth)
           (a b : option sql.Truth) : option sql.Truth :=
  match a, b with
  | Some x, Some y => Some (f x y)
  | _, _ => None
  end.

(** SQL's conjunction and disjunction of a list of truth values. *)
Definition allOf (vs : list (option sql.Truth)) : option sql.Truth :=
  fold_right (lift2 sql.tand) (Some sql.TrueT) vs.

Definition anyOf (vs : list (option sql.Truth)) : option sql.Truth :=
  fold_right (lift2 sql.tor) (Some sql.FalseT) vs.

(** A predicate that adds a condition, and its negation when the
    selector's [Not()] flag is up: every field predicate, and every
    [And] and [Or] of one predicate or more that add conditions. *)
Definition regular (p : predicate.Tenant) : Prop :=
  exists c, tenant.adds p c (sql.PNot (Some c)).

End tenant_sem.

(** ** The test server of [pkg/api/v1/utils_test.go] *)
Module testutil.

(** The calls that [newTestServer] and [close] make to the libraries
    around them: zap, cockroach-go's [testserver], crdbx, goose, echox,
    the router of this package and [httptest].  [HTTPClose] is
    [Close] of [httptest]'s server, with the server it is called on:
    [None] is the nil pointer. *)
Inductive HTTPServer : Type := httptestServer.

Inductive Call : Type :=
| LoggerBuild
| NewTestServer
| WaitForInit
| Stop
| PGURL
| NewDB
| SetBaseFS
| SetDialect
| Up
| EchoxNewServer
| NewRouter
| Routes
| HTTPNewServer
| HTTPClose (s : option HTTPServer).

Definition isStop (c : Call) : bool :=
  match c with Stop => true | _ => false end.

(** What the fallible calls answer: the error of each, if any, and
    whether [Close] panics when its receiver is nil. *)
Record Outcomes : Type := {
  buildErr : option error;
  startErr : option error;
  initErr : option error;
  dbErr : option error;
  dialectErr : option error;
  upErr : option error;
  nilClosePanics : bool
}.

(** A computation: its value, [None] when it panicked, and the calls it
    made up to there. *)
Definition T (A : Type) : Type := (option A * list Call)%type.

Definition value {A} (m : T A) : option A := fst m.
Definition calls {A} (m : T A) : list Call := snd m.

Definition ret {A} (a : A) : T A := (Some a, []).

Definition panic {A} : T A := (None, []).

Definition bind {A B} (m : T A) (k : A -> T B) : T B :=
  match m with
  | (Some a, tr) => let '(b, tr') := k a in (b, tr ++ tr')
  | (None, tr) => (None, tr)
  end.

Definition call (c : Call) : T unit := (Some tt, [c]).

Declare Scope setup_scope.
Delimit Scope setup_scope with setup.
Notation "x <- m ;; k" := (bind m (fun x => k))
  (at level 100, m at next level, right associativity) : setup_scope.
Notation "m ;; k" := (bind m (fun _ => k))
  (at level 100, right associativity) : setup_scope.

(** [testServer]: the embedded [*httptest.Server] and the functions to
    run on [close]. *)
Record testServer : Type := {
  Server : option HTTPServer;
  closeFns : list (T unit)
}.

Definition appendFn (ts : testServer) (fn : T unit) : testServer :=
  {| Server := Server ts; closeFns := closeFns ts ++ [fn] |}.

Definition setServer (ts : testServer) (s : HTTPServer) : testServer :=
  {| Server := Some s; closeFns := closeFns ts |}.

Section Setup.

Variable env : Outcomes.

(** [srv.Stop], the method value appended first. *)
Definition srvStop : T unit := call Stop.

(** [Close] of the embedded server.  [ts.Close()] is this method,
    promoted from the embedded pointer, on whatever [ts.Server] holds. *)
Definition Close (s : option HTTPServer) : T unit :=
  (call (HTTPClose s) ;;
   match s with
   | None => if nilClosePanics env then panic else ret tt
   | Some _ => ret tt
   end)%setup.

Fixpoint runFns (fns : list (T unit)) : T unit :=
  match fns with
  | [] => ret tt
  | fn :: rest => (fn ;; runFns rest)%setup
  end.

(** [close]: nothing on a nil receiver, else the functions in the order
    in which they were appended. *)
Definition close (t : option testServer) : T unit :=
  match t with
  | None => ret tt
  | Some ts => runFns (closeFns ts)
  end.

(** [newTestServer]: the pair it returns, a nil server being [None]. *)
Definition newTestServer : T (option testServer * option error) :=
  (call LoggerBuild ;;
   match buildErr env with
   | Some err => ret (None, Some err)
   | None =>
     let ts := {| Server := None; closeFns := [] |} in
     call NewTestServer ;;
     match startErr env with
     | Some err => ret (None, Some err)
     | None =>
       let ts := appendFn ts srvStop in
       call WaitForInit ;;
       match initErr env with
       | Some err => Close (Server ts) ;; ret (None, Some err)
       | None =>
         call PGURL ;;
         call NewDB ;;
         match dbErr env with
         | Some err => Close (Server ts) ;; ret (None, Some err)
         | None =>
           call SetBaseFS ;;
           call SetDialect ;;
           match dialectErr env with
           | Some err => Close (Server ts) ;; ret (None, Some err)
           | None =>
             call Up ;;
             match upErr env with
             | Some err => Close (Server ts) ;; ret (None, Some err)
             | None =>
               call EchoxNewServer ;;
               call NewRouter ;;
               call Routes ;;
               call HTTPNewServer ;;
               let ts := setServer ts httptestServer in
               let ts := appendFn ts (Close (Server ts)) in
               ret (Some ts, None)
             end
           end
         end
       end
     end
   end)%setup.

End Setup.

(** The first error among the steps that follow the start of the
    database server. *)
Definition laterErr (env : Outcomes) : option error :=
  match initErr env, dbErr env, dialectErr env, upErr env with
  | Some e, _, _, _ => Some e
  | None, Some e, _, _ => Some e
  | None, None, Some e, _ => Some e
  | None, None, None, e => e
  end.

Definition allGood : Outcomes :=
  {| buildErr := None; startErr := None; initErr := None; dbErr := None;
     dialectErr := None; upErr := None; nilClosePanics := true |}.

(** The migrations fail. *)
Definition badMigration : Outcomes :=
  {| buildErr := None; startErr := None; initErr := None; dbErr := None;
     dialectErr := None; upErr := Some (ErrorString "migration failed");
     nilClosePanics := true |}.

End testutil.

(** * Properties *)

Unset Implicit Arguments.

(** ** The outward representation *)
Module api_repr.

Import api.

Lemma store_length {A} (s : list A) i x :
  List.length (store s i x) = List.length s.
Proof.
  revert i; induction s as [|y s IH]; intros [|i]; simpl; auto.
Qed.

Lemma store_nth_same {A} (s : list A) i x :
  i < List.length s -> nth_error (store s i x) i = Some x.
Proof.
  revert i; induction s as [|y s IH]; intros [|i] Hi; simpl in *;
    try lia; auto.
  apply IH; lia.
Qed.

Lemma store_nth_other {A} (s : list A) i j x :
  i <> j -> nth_error (store s i x) j = nth_error s j.
Proof.
  revert i j; induction s as [|y s IH]; intros [|i] [|j] Hij; simpl;
    try congruence; auto.
Qed.

(** The loop invariant of [v1TenantSlice]: slots below [i] are kept,
    slot [i + k] receives the representation of the [k]-th tenant. *)
Lemma v1TenantSlice_range_spec ts :
  forall i tenants,
    List.length tenants = i + List.length ts ->
    List.length (v1TenantSlice_range i ts tenants) = List.length tenants /\
    forall j,
      nth_error (v1TenantSlice_range i ts tenants) j =
      if Nat.ltb j i then nth_error tenants j
      else option_map (fun t => Some (v1Tenant t)) (nth_error ts (j - i)).
Proof.
  induction ts as [|t rest IH]; intros i tenants Hlen; simpl in *.
  - split; [reflexivity|]. intro j.
    destruct (Nat.ltb_spec j i); [reflexivity|].
    rewrite (proj2 (nth_error_None tenants j)) by lia.
    now destruct (j - i).
  - destruct (IH (S i) (store tenants i (Some (v1Tenant t)))) as [HL HN].
    { rewrite store_length; lia. }
    split; [now rewrite HL, store_length|].
    intro j. rewrite HN.
    destruct (Nat.ltb_spec j (S i)) as [Hlt|Hge];
      destruct (Nat.ltb_spec j i) as [Hlt'|Hge']; try lia.
    + apply store_nth_other; lia.
    + assert (j = i) by lia; subst j.
      rewrite store_nth_same by lia.
      now rewrite Nat.sub_diag.
    + replace (j - i) with (S (j - S i)) by lia. reflexivity.
Qed.

(** C10.  [v1Tenant] copies id, name, createdAt and updatedAt verbatim and
    shows parentTenantId (deletedAt) exactly when the model's nullable
    ParentTenantID (DeletedAt) is non-null, with its value;
    [v1TenantSlice] keeps the length and the order of the slice: slot [i]
    holds [v1Tenant] of element [i]. *)
Theorem v1Tenant_v1TenantSlice_faithful :
  (forall t : models.Tenant,
      ID (v1Tenant t) = models.ID t /\
      Name (v1Tenant t) = models.Name t /\
      CreatedAt (v1Tenant t) = models.CreatedAt t /\
      UpdatedAt (v1Tenant t) = models.UpdatedAt t /\
      (ParentTenantID (v1Tenant t) <> None <->
         null.Valid (models.ParentTenantID t) = true) /\
      (null.Valid (models.ParentTenantID t) = true ->
         ParentTenantID (v1Tenant t) =
           Some (null.String_ (models.ParentTenantID t))) /\
      (DeletedAt (v1Tenant t) <> None <->
         null.TimeValid (models.DeletedAt t) = true) /\
      (null.TimeValid (models.DeletedAt t) = true ->
         DeletedAt (v1Tenant t) = Some (null.Time (models.DeletedAt t)))) /\
  (forall ts : list models.Tenant,
      List.length (v1TenantSlice ts) = List.length ts /\
      forall i,
        nth_error (v1TenantSlice ts) i =
        option_map (fun t => Some (v1Tenant t)) (nth_error ts i)).
Proof.
  split.
  - intro t. unfold v1Tenant, null.Ptr, null.TimePtr; simpl.
    repeat split; try reflexivity.
    all: try (intros ->; reflexivity).
    all: try (destruct (null.Valid _); intro H;
              first [reflexivity | discriminate | elim H; reflexivity]).
    all: destruct (null.TimeValid _); intro H;
      first [reflexivity | discriminate | elim H; reflexivity].
  - intro ts. unfold v1TenantSlice.
    destruct (v1TenantSlice_range_spec ts 0 (repeat None (List.length ts)))
      as [HL HN].
    { now rewrite repeat_length. }
    split; [now rewrite HL, repeat_length|].
    intro i. rewrite HN. simpl. now rewrite Nat.sub_0_r.
Qed.

End api_repr.

(** ** The handlers against their collaborators *)
Module api_handlers.

Import api api_trace.

(** Runs a handler symbolically: splits on every collaborator outcome
    the handler branches on. *)
Ltac step_handler :=
  match goal with
  | |- context [match ?x with _ => _ end] =>
      lazymatch x with
      | context [match _ with _ => _ end] => fail
      | _ => destruct x eqn:?
      end
  | |- context [if ?x then _ else _] =>
      lazymatch x with
      | context [if _ then _ else _] => fail
      | _ => destruct x eqn:?
      end
  end.

Ltac run_handler :=
  unfold bind, ret, logIfError, logError, insert, one, all, update, delete,
    PublishCreate, PublishUpdate, PublishDelete, publish;
  repeat (step_handler;
          unfold bind, ret, logIfError, logError; simpl in * ).

Ltac norm_eqb :=
  repeat match goal with
         | H : negb _ = true |- _ => apply negb_true_iff in H
         | H : negb _ = false |- _ => apply negb_false_iff in H
         | H : String.eqb _ _ = true |- _ => apply String.eqb_eq in H
         | H : String.eqb _ _ = false |- _ => apply String.eqb_neq in H
         end.

Ltac logged :=
  unfold publishFailuresLogged; simpl;
  intros ? ? ? ? ? Hin;
  repeat (destruct Hin as [Hin|Hin]; try discriminate);
  try contradiction;
  inversion Hin; subst; eexists; simpl; eauto 10.

Section Generic.

Context {Ctx DB Bus : Type}.
Context {transport : Transport Ctx}.
Context {repository : Repository DB}.
Context {publisher : Publisher Bus}.

Lemma tenantCreate_events :
  eventsFollowPersistence (tenantCreate (Ctx := Ctx) (DB := DB) (Bus := Bus)).
Proof.
  intros c w. unfold tenantCreate. run_handler.
  all: split; intros; try discriminate; try reflexivity.
  all: repeat split; try reflexivity; logged.
Qed.

Lemma tenantUpdate_events :
  eventsFollowPersistence (tenantUpdate (Ctx := Ctx) (DB := DB) (Bus := Bus)).
Proof.
  intros c w. unfold tenantUpdate. run_handler.
  all: split; intros; try discriminate; try reflexivity.
  all: repeat split; try reflexivity; logged.
Qed.

Lemma tenantDelete_events :
  eventsFollowPersistence (tenantDelete (Ctx := Ctx) (DB := DB) (Bus := Bus)).
Proof.
  intros c w. unfold tenantDelete. run_handler.
  all: split; intros; try discriminate; try reflexivity.
  all: repeat split; try reflexivity; logged.
Qed.

(** C1.  On create, update and delete alike: when the insert, update or
    delete fails, no event is submitted to the publisher; when it
    succeeds, the handler returns its success response and submits
    exactly one event, whatever becomes of building or publishing the
    message, and every failed publish is logged. *)
Theorem events_follow_persistence :
  eventsFollowPersistence (tenantCreate (Ctx := Ctx) (DB := DB) (Bus := Bus)) /\
  eventsFollowPersistence (tenantUpdate (Ctx := Ctx) (DB := DB) (Bus := Bus)) /\
  eventsFollowPersistence (tenantDelete (Ctx := Ctx) (DB := DB) (Bus := Bus)).
Proof.
  split; [|split].
  - exact tenantCreate_events.
  - exact tenantUpdate_events.
  - exact tenantDelete_events.
Qed.

(** *** Creation and the parent link *)

Section Create.

(** The repository returns the inserted row with the parent it was
    given, and a message carries the additional URNs it was built
    with (spec 4.2 and 6). *)
Hypothesis insert_keeps_parent :
  forall t d t' d',
    Insert t d = (Ok t', d') ->
    models.ParentTenantID t' = models.ParentTenantID t.
Hypothesis message_carries_urns :
  forall a urn urns m e,
    NewTenantMessage a urn urns = (Some m, e) ->
    pubsub.additionalURNs m = urns.

(** C2.  A create request that succeeds: with a parent id [P] in the
    path, the created tenant shows [parentTenantId = P] and the one
    creation event carries the parent's URN as its additional URN;
    without one, [parentTenantId] is absent and the event carries no
    additional URN. *)
Theorem tenantCreate_parent_link (c : Ctx) (w w' : World DB Bus)
        (t' : models.Tenant) (tr : list Effect) :
  tenantCreate c w = (v1TenantCreatedResponse t', tr, w') ->
  exists msg pe,
    published tr = [Published pubsub.Create "tenants" "global" msg pe] /\
    (fst (parseUUID c "id") <> "" ->
       ParentTenantID (v1Tenant t') = Some (fst (parseUUID c "id")) /\
       forall m, msg = Some m ->
         pubsub.additionalURNs m =
           [pubsub.NewTenantURN (fst (parseUUID c "id"))]) /\
    (fst (parseUUID c "id") = "" ->
       ParentTenantID (v1Tenant t') = None /\
       forall m, msg = Some m -> pubsub.additionalURNs m = []).
Proof.
  unfold tenantCreate. run_handler.
  all: intro Hrun; inversion Hrun; subst; clear Hrun.
  all: do 2 eexists; split; [reflexivity|].
  all: norm_eqb.
  all: match goal with
       | H : Insert _ _ = (Ok _, _) |- _ =>
           apply insert_keeps_parent in H
       end.
  all: split; intro Hp; try congruence.
  all: split;
    [ unfold null.Ptr;
      match goal with H : models.ParentTenantID _ = _ |- _ => rewrite H end;
      reflexivity
    | intros m Hm; subst;
      eapply message_carries_urns; eassumption ].
Qed.

End Create.

(** *** A failed insert *)

Section InsertFailure.

(** A failed insert persists nothing (spec 4.2, section 5: a single-row
    insert is atomic). *)
Hypothesis insert_atomic :
  forall t d e d', Insert t d = (Err e, d') -> d' = d.

(** C3, as amended.  When the insert of a create request fails -- as it
    does with a constraint violation when the named parent references no
    tenant -- the handler logs the error and answers with the generic
    internal-server-error response (500), whatever the error is; it
    submits no event, asks for no other write, and the store is as it
    was. *)
Theorem tenantCreate_insert_failure (c : Ctx) (w w' : World DB Bus)
        (r : Response) (tr : list Effect) (t : models.Tenant) (e : error) :
  tenantCreate c w = (r, tr, w') ->
  In (DBInsert t (Some e)) tr ->
  r = v1InternalServerErrorResponse e /\
  statusCode r = Some 500 /\
  In (LogError "error inserting tenant" e) tr /\
  published tr = [] /\
  writes tr = [DBInsert t (Some e)] /\
  (fst (parseUUID c "id") <> "" ->
     models.ParentTenantID t = null.StringFrom (fst (parseUUID c "id"))) /\
  db w' = db w.
Proof.
  unfold tenantCreate. run_handler.
  all: intro Hrun; inversion Hrun; subst; clear Hrun; simpl.
  all: intro Hin;
    repeat (destruct Hin as [Hin|Hin]; try discriminate);
    try contradiction.
  all: inversion Hin; subst; clear Hin.
  all: match goal with
       | H : Insert _ _ = (Err _, _) |- _ =>
           apply insert_atomic in H; subst
       end.
  all: norm_eqb.
  all: repeat split; auto; try congruence.
Qed.

End InsertFailure.

(** *** Update and its frame *)

Section UpdateFrame.

(** The repository's update keeps the supplied fields (spec 4.2). *)
Hypothesis update_keeps_fields :
  forall t d t' d',
    Update t d = (Ok t', d') ->
    models.ID t' = models.ID t /\
    models.Name t' = models.Name t /\
    models.Description t' = models.Description t /\
    models.ParentTenantID t' = models.ParentTenantID t /\
    models.CreatedAt t' = models.CreatedAt t /\
    models.DeletedAt t' = models.DeletedAt t.

(** C5.  A successful update of the tenant [told] found under the path
    id, in a store whose updates stamp later: the one write asked of the repository is an update of [told]
    with at most its name replaced; the tenant returned has the new
    name and a later [updatedAt], and the id, [createdAt],
    [parentTenantId], description and [deletedAt] of [told]. *)
Theorem tenantUpdate_frame (c : Ctx) (w w' : World DB Bus)
        (payload : updateTenantRequest)
        (t' : models.Tenant) (tr : list Effect) :
  stampsLater (db w) ->
  bindUpdate c = Ok payload ->
  tenantUpdate c w = (v1TenantGetResponse t', tr, w') ->
  exists told,
    One [models.TenantWhere_ID_EQ (fst (parseUUID c "id"))] (db w) = Ok told /\
    writes tr =
      [DBUpdate match updateName payload with
                | Some name => models.setName told name
                | None => told
                end None] /\
    models.Name t' = match updateName payload with
                     | Some name => name
                     | None => models.Name told
                     end /\
    (models.UpdatedAt told < models.UpdatedAt t')%Z /\
    models.ID t' = models.ID told /\
    models.CreatedAt t' = models.CreatedAt told /\
    models.ParentTenantID t' = models.ParentTenantID told /\
    models.Description t' = models.Description told /\
    models.DeletedAt t' = models.DeletedAt told /\
    ParentTenantID (v1Tenant t') = ParentTenantID (v1Tenant told) /\
    DeletedAt (v1Tenant t') = DeletedAt (v1Tenant told).
Proof.
  intros update_stamps_later Hbind.
  unfold tenantUpdate. rewrite Hbind. run_handler.
  all: intro Hrun; inversion Hrun; subst; clear Hrun; simpl.
  all: match goal with
       | H : One _ _ = Ok ?t0 |- _ => exists t0
       end.
  all: match goal with
       | H1 : One _ _ = Ok _, H2 : Update _ _ = (Ok _, _) |- _ =>
           pose proof (update_stamps_later _ _ _ _ _ H1 H2) as Hlater;
           destruct (update_keeps_fields _ _ _ _ H2)
             as (Hid & Hname & Hdesc & Hpar & Hcre & Hdel)
       end.
  all: simpl in *.
  all: unfold v1Tenant; simpl; rewrite Hpar, Hdel.
  all: repeat split; auto.
Qed.

End UpdateFrame.

(** *** A failed delete *)

(** C7, on the delete path.  When the delete itself fails, the handler
    logs the error and returns it as it is: the response is not the
    generic internal-server-error response that every other failing
    persistence call is answered with. *)
Theorem tenantDelete_returns_raw_error (c : Ctx) (w w' : World DB Bus)
        (r : Response) (tr : list Effect) (t : models.Tenant) (e : error) :
  tenantDelete c w = (r, tr, w') ->
  In (DBDelete t false (Some e)) tr ->
  r = returnErr e /\
  r <> v1InternalServerErrorResponse e /\
  statusCode r = None /\
  In (LogError "failed to delete tenant" e) tr.
Proof.
  unfold tenantDelete. run_handler.
  all: intro Hrun; inversion Hrun; subst; clear Hrun; simpl.
  all: intro Hin;
    repeat (destruct Hin as [Hin|Hin]; try discriminate);
    try contradiction.
  all: inversion Hin; subst; clear Hin.
  all: repeat split; auto; discriminate.
Qed.

Ltac find_failure :=
  intros Hrun Hfail; inversion Hrun; subst; clear Hrun; simpl in *;
  repeat match goal with
         | H : _ \/ _ |- _ => destruct H
         | H : exists _, _ |- _ => destruct H
         | H : _ /\ _ |- _ => destruct H
         | H : False |- _ => contradiction
         | H : _ = _ |- _ => discriminate H
         | H : DBInsert _ _ = DBInsert _ _ |- _ => inversion H; subst; clear H
         | H : DBUpdate _ _ = DBUpdate _ _ |- _ => inversion H; subst; clear H
         | H : DBAll _ _ = DBAll _ _ |- _ => inversion H; subst; clear H
         | H : DBOne _ _ = DBOne _ _ |- _ => inversion H; subst; clear H
         end;
  try congruence;
  repeat split; eauto 10.

Lemma persistence_failures_answer_500 :
  answers500 (tenantCreate (Ctx := Ctx) (DB := DB) (Bus := Bus)) /\
  answers500 (tenantList (Ctx := Ctx) (DB := DB) (Bus := Bus)) /\
  answers500 (tenantGet (Ctx := Ctx) (DB := DB) (Bus := Bus)) /\
  answers500 (tenantUpdate (Ctx := Ctx) (DB := DB) (Bus := Bus)) /\
  answers500 (tenantDelete (Ctx := Ctx) (DB := DB) (Bus := Bus)).
Proof.
  split; [|split; [|split; [|split]]]; intros c w r tr w' e.
  - unfold tenantCreate. run_handler. all: find_failure.
  - unfold tenantList. run_handler. all: find_failure.
  - unfold tenantGet. run_handler. all: find_failure.
  - unfold tenantUpdate. run_handler. all: find_failure.
  - unfold tenantDelete. run_handler. all: find_failure.
Qed.

Ltac find_lookup :=
  intros Hrun Hin Hnf; inversion Hrun; subst; clear Hrun; simpl in *;
  repeat match goal with
         | H : _ \/ _ |- _ => destruct H
         | H : False |- _ => contradiction
         | H : DBOne _ _ = DBOne _ _ |- _ => inversion H; subst; clear H
         | H : _ = DBOne _ _ |- _ => discriminate H
         end;
  try congruence;
  try (repeat split; reflexivity).

(** A get, update or delete of an id that the lookup does not find is
    answered NotFound; nothing is written or published. *)
Lemma unknown_id_answers_404 :
  answers404 (tenantGet (Ctx := Ctx) (DB := DB) (Bus := Bus)) /\
  answers404 (tenantUpdate (Ctx := Ctx) (DB := DB) (Bus := Bus)) /\
  answers404 (tenantDelete (Ctx := Ctx) (DB := DB) (Bus := Bus)).
Proof.
  split; [|split]; intros c w r tr w' mods e.
  - unfold tenantGet. run_handler. all: find_lookup.
  - unfold tenantUpdate. run_handler. all: find_lookup.
  - unfold tenantDelete. run_handler. all: find_lookup.
Qed.

(** A request that is answered 400 (malformed id, unreadable or invalid
    body) stops before any repository call and before any event. *)
Lemma bad_requests_touch_nothing :
  rejectsEarly (tenantCreate (Ctx := Ctx) (DB := DB) (Bus := Bus)) /\
  rejectsEarly (tenantList (Ctx := Ctx) (DB := DB) (Bus := Bus)) /\
  rejectsEarly (tenantGet (Ctx := Ctx) (DB := DB) (Bus := Bus)) /\
  rejectsEarly (tenantUpdate (Ctx := Ctx) (DB := DB) (Bus := Bus)) /\
  rejectsEarly (tenantDelete (Ctx := Ctx) (DB := DB) (Bus := Bus)).
Proof.
  split; [|split; [|split; [|split]]]; intros c w r tr w' e.
  - unfold tenantCreate. run_handler.
    all: intros Hrun Hr; inversion Hrun; subst; try discriminate.
    all: repeat split; reflexivity.
  - unfold tenantList. run_handler.
    all: intros Hrun Hr; inversion Hrun; subst; try discriminate.
    all: repeat split; reflexivity.
  - unfold tenantGet. run_handler.
    all: intros Hrun Hr; inversion Hrun; subst; try discriminate.
    all: repeat split; reflexivity.
  - unfold tenantUpdate. run_handler.
    all: intros Hrun Hr; inversion Hrun; subst; try discriminate.
    all: repeat split; reflexivity.
  - unfold tenantDelete. run_handler.
    all: intros Hrun Hr; inversion Hrun; subst; try discriminate.
    all: repeat split; reflexivity.
Qed.

End Generic.

End api_handlers.

(** ** The in-memory repository *)
Module memdb_facts.

Import memdb.

Lemma In_firstn_In {A} (x : A) n l : In x (firstn n l) -> In x l.
Proof.
  revert l; induction n as [|n IH]; intros l H; destruct l; simpl in *;
    try contradiction.
  destruct H as [->|H]; auto.
Qed.

Lemma In_skipn_In {A} (x : A) n l : In x (skipn n l) -> In x l.
Proof.
  revert l; induction n as [|n IH]; intros [|y l]; simpl; auto.
Qed.

Lemma In_page mods l t : In t (page mods l) -> In t l.
Proof.
  unfold page. destruct (limitOf mods); intro H.
  - eapply In_skipn_In, In_firstn_In, H.
  - eapply In_skipn_In, H.
Qed.

Lemma page_nil mods : page mods [] = [].
Proof.
  unfold page. rewrite skipn_nil. destruct (limitOf mods); auto.
  apply firstn_nil.
Qed.

Lemma In_selected mods d t :
  In t (selected mods d) <->
  In t (rows d) /\ live t = true /\
  forall m, In m mods -> whereMatches m t = true.
Proof.
  unfold selected. rewrite filter_In, andb_true_iff, forallb_forall.
  tauto.
Qed.

(** What [One] returns is a stored, live row that satisfies the mods. *)
Lemma One_Ok mods d t :
  One mods d = Ok t ->
  In t (rows d) /\ live t = true /\
  forall m, In m mods -> whereMatches m t = true.
Proof.
  unfold One. destruct (page mods (selected mods d)) as [|t0 l] eqn:E;
    [discriminate|].
  intro H; inversion H; subst.
  apply In_selected, (In_page mods). rewrite E. now left.
Qed.

(** [One] finds nothing when no live row satisfies the mods. *)
Lemma One_none mods d :
  (forall t, In t (rows d) -> live t = true ->
             exists m, In m mods /\ whereMatches m t = false) ->
  One mods d = Err ErrNoRows.
Proof.
  intro Hnone. unfold One.
  assert (selected mods d = []) as ->.
  { destruct (selected mods d) as [|t l] eqn:E; auto.
    assert (In t (selected mods d)) as Hin by (rewrite E; now left).
    apply In_selected in Hin. destruct Hin as (Hin & Hlive & Hall).
    destruct (Hnone t Hin Hlive) as (m & Hm & Hf).
    rewrite (Hall m Hm) in Hf. discriminate. }
  now rewrite page_nil.
Qed.

Lemma Insert_keeps_parent t d t' d' :
  Insert t d = (Ok t', d') ->
  models.ParentTenantID t' = models.ParentTenantID t.
Proof.
  unfold Insert.
  destruct (writeFault d); [discriminate|].
  destruct (_ && _); [discriminate|].
  destruct (existsb _ _); [discriminate|].
  intro H; inversion H; reflexivity.
Qed.

Lemma Insert_atomic t d e d' : Insert t d = (Err e, d') -> d' = d.
Proof.
  unfold Insert.
  destruct (writeFault d); [now inversion 1|].
  destruct (_ && _); [now inversion 1|].
  destruct (existsb _ _); [now inversion 1|discriminate].
Qed.

(** An insert naming a parent that no row has fails with a constraint
    violation. *)
Lemma Insert_orphan t d :
  writeFault d = None ->
  null.Valid (models.ParentTenantID t) = true ->
  existsb (hasID (null.String_ (models.ParentTenantID t))) (rows d) = false ->
  Insert t d = (Err ErrConstraintViolation, d).
Proof.
  intros Hf Hv Hex. unfold Insert. now rewrite Hf, Hv, Hex.
Qed.

Lemma Update_keeps_fields t d t' d' :
  Update t d = (Ok t', d') ->
  models.ID t' = models.ID t /\
  models.Name t' = models.Name t /\
  models.Description t' = models.Description t /\
  models.ParentTenantID t' = models.ParentTenantID t /\
  models.CreatedAt t' = models.CreatedAt t /\
  models.DeletedAt t' = models.DeletedAt t.
Proof.
  unfold Update.
  destruct (writeFault d); [discriminate|].
  destruct (existsb _ _); [|discriminate].
  intro H; inversion H; simpl; auto 10.
Qed.

(** In a well-formed store an update stamps later than any stored row. *)
Lemma Update_stamps_later d :
  wf d ->
  forall mods told t t' d',
    One mods d = Ok told ->
    Update t d = (Ok t', d') ->
    (models.UpdatedAt told < models.UpdatedAt t')%Z.
Proof.
  intros Hwf mods told t t' d' Hone Hup.
  apply One_Ok in Hone. destruct Hone as (Hin & _).
  unfold wf in Hwf. rewrite Forall_forall in Hwf.
  specialize (Hwf told Hin).
  unfold Update in Hup.
  destruct (writeFault d); [discriminate|].
  destruct (existsb _ _); [|discriminate].
  inversion Hup; subst; simpl. lia.
Qed.

(** Well-formedness is kept by every write. *)
Lemma Insert_wf t d r d' : wf d -> Insert t d = (r, d') -> wf d'.
Proof.
  unfold Insert, wf. intros Hwf.
  destruct (writeFault d); [inversion 1; subst; exact Hwf|].
  destruct (_ && _); [inversion 1; subst; exact Hwf|].
  destruct (existsb _ _); [inversion 1; subst; exact Hwf|].
  inversion 1; subst; simpl.
  rewrite Forall_forall in *. intros x Hx.
  apply in_app_or in Hx. destruct Hx as [Hx|[<-|[]]]; simpl.
  - specialize (Hwf x Hx). lia.
  - lia.
Qed.

Lemma Update_wf t d r d' :
  wf d -> (models.UpdatedAt t <= clock d)%Z -> Update t d = (r, d') -> wf d'.
Proof.
  unfold Update, wf. intros Hwf Ht.
  destruct (writeFault d); [inversion 1; subst; exact Hwf|].
  destruct (existsb _ _); [|inversion 1; subst; exact Hwf].
  inversion 1; subst; simpl.
  rewrite Forall_forall in *. intros x Hx.
  apply in_map_iff in Hx. destruct Hx as (y & <- & Hy).
  destruct (hasID _ y); simpl; [lia|].
  specialize (Hwf y Hy). lia.
Qed.

Lemma Delete_wf t hard d r d' : wf d -> Delete t hard d = (r, d') -> wf d'.
Proof.
  unfold Delete, wf. intros Hwf.
  destruct (writeFault d); [inversion 1; subst; exact Hwf|].
  destruct (existsb _ _); [|inversion 1; subst; exact Hwf].
  inversion 1; subst; simpl.
  rewrite Forall_forall in *. intros x Hx.
  destruct hard.
  - apply filter_In in Hx. destruct Hx as [Hx _].
    specialize (Hwf x Hx). lia.
  - apply in_map_iff in Hx. destruct Hx as (y & <- & Hy).
    specialize (Hwf y Hy).
    destruct (_ && _); simpl; lia.
Qed.

(** Looking a tenant up by id. *)
Lemma One_by_id_Ok id d t :
  One [models.TenantWhere_ID_EQ id] d = Ok t ->
  In t (rows d) /\ live t = true /\ models.ID t = id.
Proof.
  intro H. apply One_Ok in H. destruct H as (Hin & Hlive & Hall).
  repeat split; auto.
  specialize (Hall _ (or_introl eq_refl)). simpl in Hall.
  now apply String.eqb_eq.
Qed.

Lemma One_by_id_dead id d :
  (forall t, In t (rows d) -> models.ID t = id -> live t = false) ->
  One [models.TenantWhere_ID_EQ id] d = Err ErrNoRows.
Proof.
  intro Hdead. apply One_none. intros t Hin Hlive.
  exists (models.TenantWhere_ID_EQ id). split; [now left|].
  simpl. unfold hasID. destruct (String.eqb_spec (models.ID t) id); auto.
  rewrite (Hdead t Hin) in Hlive by assumption. discriminate.
Qed.

(** A soft delete marks the live rows of the id and removes none. *)
Lemma Delete_soft t d d' :
  Delete t false d = (None, d') ->
  rows d' = map (fun r => if hasID (models.ID t) r && live r
                          then markDeleted r (clock d + 1) else r) (rows d).
Proof.
  unfold Delete.
  destruct (writeFault d); [discriminate|].
  destruct (existsb _ _); [|discriminate].
  now inversion 1.
Qed.

Lemma Delete_soft_ids t d d' :
  Delete t false d = (None, d') ->
  map models.ID (rows d') = map models.ID (rows d).
Proof.
  intro H. rewrite (Delete_soft _ _ _ H), map_map.
  apply map_ext. intro r. now destruct (_ && _).
Qed.

Lemma Delete_soft_dead t d d' :
  Delete t false d = (None, d') ->
  forall r', In r' (rows d') -> models.ID r' = models.ID t ->
             null.TimeValid (models.DeletedAt r') = true.
Proof.
  intros H r' Hin Hid. rewrite (Delete_soft _ _ _ H) in Hin.
  apply in_map_iff in Hin. destruct Hin as (r & <- & Hr).
  unfold hasID, live in *.
  destruct (String.eqb_spec (models.ID r) (models.ID t)) as [E|E]; simpl in *.
  - destruct (null.TimeValid (models.DeletedAt r)) eqn:V; simpl; auto.
  - congruence.
Qed.

End memdb_facts.

(** ** The handlers on the in-memory repository *)
Module api_memdb.

Import api api_trace api_handlers listing.

(** A run is the triple of its parts. *)
Lemma run_parts {A W} (run : A * list Effect * W) :
  run = (response run, trace run, after run).
Proof. now destruct run as [[? ?] ?]. Qed.

Lemma message_carries_urns a urn urns m e :
  script.message a urn urns = (Some m, e) ->
  pubsub.additionalURNs m = urns.
Proof. unfold script.message. now inversion 1. Qed.

(** The child [acme-east] created under [t_0]: it shows its parent and
    its creation event carries the parent's URN. *)
Lemma tenantCreate_parent_link_witness :
  let run := tenantCreate (scenario.create (scenario.withID "t_0") "acme-east")
                          (scenario.world scenario.db1) in
  response run = v1TenantCreatedResponse scenario.acmeEast /\
  ParentTenantID (v1Tenant scenario.acmeEast) = Some "t_0" /\
  exists msg pe,
    published (trace run) =
      [Published pubsub.Create "tenants" "global" msg pe] /\
    forall m, msg = Some m ->
      pubsub.additionalURNs m = [pubsub.NewTenantURN "t_0"].
Proof.
  intro run.
  assert (response run = v1TenantCreatedResponse scenario.acmeEast) as Hr
      by (vm_compute; reflexivity).
  pose proof (run_parts run) as Hrun. rewrite Hr in Hrun.
  destruct (tenantCreate_parent_link
              (Ctx := script.Request) (DB := memdb.DB) (Bus := script.Bus)
              (transport := script.transport)
              (repository := memdb.repository)
              (publisher := script.publisher)
              memdb_facts.Insert_keeps_parent message_carries_urns
              _ _ _ _ _ Hrun) as (msg & pe & Hpub & Hwith & _).
  destruct Hwith as [Hparent Hurns]; [discriminate|].
  split; [exact Hr|]. split; [exact Hparent|].
  exists msg, pe. split; [exact Hpub|exact Hurns].
Defined.

(** A create under a parent that no tenant has: the insert fails with a
    constraint violation, and the answer is the 500 response. *)
Lemma tenantCreate_insert_failure_witness :
  let c := scenario.create (scenario.withID "t_9") "orphan" in
  let run := tenantCreate c (scenario.world scenario.db1) in
  let t := models.setParentTenantID (models.withName "orphan")
                                    (null.StringFrom "t_9") in
  memdb.Insert t scenario.db1 = (Err memdb.ErrConstraintViolation, scenario.db1) /\
  response run = v1InternalServerErrorResponse memdb.ErrConstraintViolation /\
  statusCode (response run) = Some 500 /\
  published (trace run) = [] /\
  db (after run) = scenario.db1.
Proof.
  intros c run t.
  assert (In (DBInsert t (Some memdb.ErrConstraintViolation)) (trace run))
    as Hin by (vm_compute; auto).
  destruct (tenantCreate_insert_failure
              (Ctx := script.Request) (DB := memdb.DB) (Bus := script.Bus)
              (transport := script.transport)
              (repository := memdb.repository)
              (publisher := script.publisher)
              memdb_facts.Insert_atomic
              c (scenario.world scenario.db1) _ _ _ _ _ (run_parts run) Hin)
    as (Hr & Hs & _ & Hp & _ & _ & Hdb).
  split; [reflexivity|]. repeat split; assumption.
Defined.

(** C3, as stated, fails: the create under the missing parent [t_9] is
    answered with status 500, neither 400 nor 409. *)
Lemma tenantCreate_orphan_counterexample :
  let c := scenario.create (scenario.withID "t_9") "orphan" in
  let run := tenantCreate c (scenario.world scenario.db1) in
  existsb (memdb.hasID "t_9") (memdb.rows scenario.db1) = false /\
  In (DBInsert (models.setParentTenantID (models.withName "orphan")
                                         (null.StringFrom "t_9"))
               (Some memdb.ErrConstraintViolation)) (trace run) /\
  statusCode (response run) = Some 500 /\
  statusCode (response run) <> Some 400 /\
  statusCode (response run) <> Some 409.
Proof.
  vm_compute. repeat split; auto; discriminate.
Qed.

Lemma db2_wf : memdb.wf scenario.db2.
Proof.
  unfold memdb.wf. simpl. repeat constructor; simpl; lia.
Qed.

(** Renaming [acme] in the store of the scenario. *)
Lemma tenantUpdate_frame_witness :
  let c := scenario.rename "t_0" "acme-inc" in
  let run := tenantUpdate c (scenario.world scenario.db2) in
  exists t',
    response run = v1TenantGetResponse t' /\
    writes (trace run) =
      [DBUpdate (models.setName scenario.acme "acme-inc") None] /\
    models.Name t' = "acme-inc" /\
    (models.UpdatedAt scenario.acme < models.UpdatedAt t')%Z /\
    models.ID t' = "t_0" /\
    models.CreatedAt t' = models.CreatedAt scenario.acme /\
    models.ParentTenantID t' = models.ParentTenantID scenario.acme /\
    models.Description t' = models.Description scenario.acme /\
    models.DeletedAt t' = models.DeletedAt scenario.acme.
Proof.
  intros c run.
  assert (response run = v1TenantGetResponse (memdb.touch
            (models.setName scenario.acme "acme-inc") 3)) as Hr
      by (vm_compute; reflexivity).
  pose proof (run_parts run) as Hrun. rewrite Hr in Hrun.
  destruct (tenantUpdate_frame
              (Ctx := script.Request) (DB := memdb.DB) (Bus := script.Bus)
              (transport := script.transport)
              (repository := memdb.repository)
              (publisher := script.publisher)
              memdb_facts.Update_keeps_fields
              c (scenario.world scenario.db2) _ _ _ _
              (memdb_facts.Update_stamps_later _ db2_wf)
              eq_refl Hrun)
    as (told & Hone & Hw & Hn & Hlater & Hid & Hc & Hp & Hd & Hdel & _).
  assert (told = scenario.acme) as ->
      by (vm_compute in Hone; inversion Hone; reflexivity).
  eexists. split; [exact Hr|]. repeat split; assumption.
Defined.

(** Deleting [acme-east] while the store refuses writes: the raw error
    comes back. *)
Lemma tenantDelete_returns_raw_error_witness :
  let run := tenantDelete (scenario.request (scenario.withID "t_1"))
                          (scenario.world scenario.db2Faulty) in
  response run = returnErr scenario.ErrConnection /\
  response run <> v1InternalServerErrorResponse scenario.ErrConnection /\
  statusCode (response run) = None.
Proof.
  intro run.
  assert (In (DBDelete scenario.acmeEast false (Some scenario.ErrConnection))
             (trace run)) as Hin by (vm_compute; auto).
  destruct (tenantDelete_returns_raw_error _ _ _ _ _ _ _ (run_parts run) Hin)
    as (Hr & Hne & Hs & _).
  repeat split; assumption.
Defined.

(** Creating the root [acme] while neither a message can be built nor
    the bus reached: the insert succeeds and the answer is still 201. *)
Lemma events_follow_persistence_witness :
  let run := tenantCreate (publisher := script.failingPublisher)
                          (scenario.create scenario.noID "acme")
                          (scenario.world memdb.empty) in
  persistSucceeded (trace run) = true /\
  isSuccess (response run) = true /\
  statusCode (response run) = Some 201 /\
  List.length (published (trace run)) = 1 /\
  In (LogError "failed to create tenant message" script.ErrNoMessage)
     (trace run) /\
  In (LogError "failed to publish tenant message" script.ErrBusDown)
     (trace run).
Proof.
  intro run.
  pose proof (proj1 (events_follow_persistence
                       (Ctx := script.Request) (DB := memdb.DB)
                       (Bus := script.Bus)
                       (publisher := script.failingPublisher))
                    (scenario.create scenario.noID "acme")
                    (scenario.world memdb.empty)) as H.
  fold run in H. rewrite (run_parts run) in H.
  destruct H as [_ H].
  assert (persistSucceeded (trace run) = true) as Hok
      by (vm_compute; reflexivity).
  destruct (H Hok) as (Hs & Hlen & _).
  repeat split; try assumption; vm_compute; auto 10.
Defined.

(** *** Soft deletion *)

Section Store.

Context {Ctx Bus : Type}.
Context {transport : Transport Ctx}.
Context {publisher : Publisher Bus}.

Lemma tenantGet_missing (c : Ctx) (w : World memdb.DB Bus) (T : string) :
  parseUUID c "id" = (T, None) ->
  (forall t, In t (memdb.rows (db w)) -> models.ID t = T ->
             memdb.live t = false) ->
  tenantGet c w =
    (v1TenantNotFoundResponse ErrNoRows,
     [DBOne [models.TenantWhere_ID_EQ T] (Some ErrNoRows)], w).
Proof.
  intros Hparse Hdead. unfold tenantGet. rewrite Hparse.
  unfold bind, one, ret. simpl.
  rewrite (memdb_facts.One_by_id_dead _ _ Hdead). reflexivity.
Qed.

Lemma tenantDelete_missing (c : Ctx) (w : World memdb.DB Bus) (T : string) :
  parseUUID c "id" = (T, None) ->
  (forall t, In t (memdb.rows (db w)) -> models.ID t = T ->
             memdb.live t = false) ->
  tenantDelete c w =
    (v1TenantNotFoundResponse ErrNoRows,
     [DBOne [models.TenantWhere_ID_EQ T] (Some ErrNoRows)], w).
Proof.
  intros Hparse Hdead. unfold tenantDelete. rewrite Hparse.
  unfold bind, one, ret. simpl.
  rewrite (memdb_facts.One_by_id_dead _ _ Hdead). reflexivity.
Qed.

(** A delete answered with nil found its row and soft-deleted it. *)
Lemma tenantDelete_done (c : Ctx) (w : World memdb.DB Bus) (T : string) :
  parseUUID c "id" = (T, None) ->
  response (tenantDelete c w) = returnNil ->
  exists t d',
    memdb.One [models.TenantWhere_ID_EQ T] (db w) = Ok t /\
    memdb.Delete t false (db w) = (None, d') /\
    db (after (tenantDelete c w)) = d'.
Proof.
  intros Hparse. unfold tenantDelete. rewrite Hparse.
  unfold bind, one, delete, ret. simpl.
  destruct (memdb.One _ _) as [t|e] eqn:Hone; simpl.
  2: { destruct (errorsIs e ErrNoRows); simpl; discriminate. }
  destruct (memdb.Delete t false (db w)) as [[e|] d'] eqn:Hdel; simpl;
    [discriminate|].
  destruct (DeleteTenantMessage _ _) as [msg merr].
  unfold PublishDelete, publish, bind, logIfError, logError, ret.
  destruct merr; simpl.
  all: destruct (Publish _ _ _ _ _) as [perr b].
  all: destruct perr; simpl; intros _.
  all: exists t, d'; auto.
Qed.

(** C6.  On the in-memory repository, for the tenant id [T] of the
    path: a delete that succeeds found a live row of [T], removes no
    row, and leaves every row of [T] with [deletedAt] set; a get of [T]
    after it is answered NotFound (404), and so is a second delete; and
    a delete of an id with no live row -- absent, or soft-deleted
    already -- is answered NotFound and changes nothing. *)
Theorem tenantDelete_soft_deletes
        (c : Ctx) (w : World memdb.DB Bus) (T : string) :
  parseUUID c "id" = (T, None) ->
  let run := tenantDelete c w in
  (response run = returnNil ->
     (exists t, In t (memdb.rows (db w)) /\ models.ID t = T /\
                memdb.live t = true) /\
     map models.ID (memdb.rows (db (after run))) =
       map models.ID (memdb.rows (db w)) /\
     (forall t', In t' (memdb.rows (db (after run))) -> models.ID t' = T ->
                 null.TimeValid (models.DeletedAt t') = true) /\
     response (tenantGet c (after run)) = v1TenantNotFoundResponse ErrNoRows /\
     statusCode (response (tenantGet c (after run))) = Some 404 /\
     response (tenantDelete c (after run)) =
       v1TenantNotFoundResponse ErrNoRows) /\
  ((forall t, In t (memdb.rows (db w)) -> models.ID t = T ->
              memdb.live t = false) ->
     response run = v1TenantNotFoundResponse ErrNoRows /\
     statusCode (response run) = Some 404 /\
     after run = w).
Proof.
  intros Hparse run. split.
  - intro Hok.
    destruct (tenantDelete_done c w T Hparse Hok) as (t & d' & Hone & Hdel & Hd).
    fold run in Hd.
    destruct (memdb_facts.One_by_id_Ok _ _ _ Hone) as (Hin & Hlive & Hid).
    assert (forall t', In t' (memdb.rows (db (after run))) ->
                       models.ID t' = T ->
                       null.TimeValid (models.DeletedAt t') = true) as Hset.
    { rewrite Hd. intros t' Hin' Hid'.
      apply (memdb_facts.Delete_soft_dead _ _ _ Hdel t' Hin'). congruence. }
    assert (forall t', In t' (memdb.rows (db (after run))) ->
                       models.ID t' = T -> memdb.live t' = false) as Hdead.
    { intros t' Hin' Hid'. unfold memdb.live.
      now rewrite (Hset t' Hin' Hid'). }
    split; [exists t; auto|].
    split; [rewrite Hd; exact (memdb_facts.Delete_soft_ids _ _ _ Hdel)|].
    split; [exact Hset|].
    rewrite (tenantGet_missing c (after run) T Hparse Hdead).
    rewrite (tenantDelete_missing c (after run) T Hparse Hdead).
    auto.
  - intro Hdead. subst run.
    rewrite (tenantDelete_missing c w T Hparse Hdead).
    auto.
Qed.

(** *** Listing *)

Lemma parentIs_Ptr P t :
  parentIs P t = true <-> null.Ptr (models.ParentTenantID t) = P.
Proof.
  unfold parentIs. destruct P as [p|], (null.Ptr _) as [q|]; split;
    try discriminate; try reflexivity.
  - intro H. apply String.eqb_eq in H. congruence.
  - intro H. inversion H. apply String.eqb_refl.
Qed.

Lemma paging_matches mods t :
  forallb isPaging mods = true ->
  forallb (fun m => memdb.whereMatches m t) mods = true.
Proof.
  induction mods as [|m mods IH]; simpl; auto.
  rewrite andb_true_iff. intros [Hm Hrest].
  rewrite (IH Hrest). now destruct m.
Qed.

Lemma selected_family (m : models.QueryMod) P mods d :
  (forall t, memdb.whereMatches m t = parentIs P t) ->
  forallb isPaging mods = true ->
  memdb.selected (m :: mods) d = family P d.
Proof.
  intros Hm Hp. unfold memdb.selected, family.
  apply filter_ext. intro t. simpl.
  now rewrite (paging_matches mods t Hp), Hm, andb_true_r.
Qed.

Lemma page_where (m : models.QueryMod) mods l :
  isPaging m = false ->
  memdb.page (m :: mods) l = memdb.page mods l.
Proof.
  intro Hm. unfold memdb.page. simpl.
  destruct m; try discriminate; now destruct (memdb.limitOf mods).
Qed.

Lemma where_parent_eq P t :
  memdb.whereMatches
    (models.TenantWhere_ParentTenantID_EQ (null.StringFrom P)) t =
  parentIs (Some P) t.
Proof.
  unfold parentIs, null.Ptr. simpl.
  now destruct (null.Valid (models.ParentTenantID t)).
Qed.

Lemma where_parent_null t :
  memdb.whereMatches models.TenantWhere_ParentTenantID_IsNull t =
  parentIs None t.
Proof.
  unfold parentIs, null.Ptr. simpl.
  now destruct (null.Valid (models.ParentTenantID t)).
Qed.

(** What a list request is answered with. *)
Lemma tenantList_run (c : Ctx) (w : World memdb.DB Bus) (P : option string) :
  requested c = Some P ->
  forallb isPaging (queryMods (parsePagination c)) = true ->
  exists mods,
    tenantList c w =
      (v1TenantsResponse
         (memdb.page (queryMods (parsePagination c)) (family P (db w)))
         (parsePagination c),
       [DBAll mods None], w).
Proof.
  unfold requested, tenantList. intros Hreq Hpaging.
  destruct (parseUUID c "id") as [id [e|]].
  - destruct (errorsIs e ErrNoRows), (errorsIs e ErrUUIDNotFound);
      try discriminate; inversion Hreq; subst.
    all: eexists; unfold bind, all, ret; simpl; unfold memdb.All.
    all: rewrite selected_family with (P := None)
        by (auto using where_parent_null).
    all: rewrite page_where by reflexivity; reflexivity.
  - inversion Hreq; subst.
    eexists; unfold bind, all, ret; simpl; unfold memdb.All.
    rewrite selected_family with (P := Some id)
      by (auto using where_parent_eq).
    rewrite page_where by reflexivity; reflexivity.
Qed.

(** C4, as amended.  On the in-memory repository a list request for the
    parent [P] (none: the roots) is answered with the page that its
    paging mods cut out of the tenants of parent [P] that are not
    soft-deleted, in the order of the store.  So every tenant returned
    is stored, is not soft-deleted and has parent [P] (a root list never
    shows a tenant with a parent); the answer is all of them when the
    page starts at offset 0 and is not shorter than their number; and
    the request changes nothing, so that repeating it gives the same
    tenants in the same order. *)
Theorem tenantList_page
        (c : Ctx) (w : World memdb.DB Bus) (P : option string) :
  requested c = Some P ->
  forallb isPaging (queryMods (parsePagination c)) = true ->
  let run := tenantList c w in
  let mods := queryMods (parsePagination c) in
  let ts := memdb.page mods (family P (db w)) in
  response run = v1TenantsResponse ts (parsePagination c) /\
  (forall t, In t ts ->
     In t (memdb.rows (db w)) /\
     null.Ptr (models.ParentTenantID t) = P /\
     null.TimePtr (models.DeletedAt t) = None) /\
  (memdb.offsetOf mods = 0 ->
   (forall n, memdb.limitOf mods = Some n ->
              List.length (family P (db w)) <= n) ->
   ts = family P (db w)) /\
  after run = w /\
  tenantList c (after run) = run.
Proof.
  intros Hreq Hpaging run mods ts.
  destruct (tenantList_run c w P Hreq Hpaging) as (ms & Hrun).
  subst run. rewrite Hrun. simpl.
  split; [reflexivity|]. split; [|split; [|split]].
  - intros t Hin. apply memdb_facts.In_page in Hin.
    unfold family in Hin. apply filter_In in Hin.
    destruct Hin as (Hin & Hc). apply andb_true_iff in Hc.
    destruct Hc as (Hlive & Hpar).
    split; [exact Hin|]. split; [now apply parentIs_Ptr|].
    unfold memdb.live in Hlive. unfold null.TimePtr.
    now destruct (null.TimeValid _).
  - intros Hoff Hlim. subst ts. unfold memdb.page. fold mods.
    rewrite Hoff. simpl.
    destruct (memdb.limitOf mods) as [n|] eqn:E; auto.
    apply firstn_all2. now apply Hlim.
  - reflexivity.
  - exact Hrun.
Qed.

End Store.

(** The roots of the four-tenant store, on a page of ten. *)
Lemma tenantList_page_witness :
  let run := tenantList (scenario.listing scenario.noID 10 0)
                        (scenario.world scenario.db4) in
  response run =
    v1TenantsResponse [scenario.acme; scenario.globex]
                      {| Limit := 10; Offset := 0 |} /\
  (forall t, In t [scenario.acme; scenario.globex] ->
             null.Ptr (models.ParentTenantID t) = None) /\
  tenantList (scenario.listing scenario.noID 10 0) (after run) = run.
Proof.
  intro run.
  assert (requested (scenario.listing scenario.noID 10 0) = Some None)
    as Hreq by reflexivity.
  destruct (tenantList_page (scenario.listing scenario.noID 10 0)
                            (scenario.world scenario.db4) None
                            Hreq eq_refl)
    as (Hr & Hsound & _ & _ & Hagain).
  split; [exact Hr|]. split; [|exact Hagain].
  intros t Hin. now apply Hsound.
Defined.

(** C4, as stated, fails.  On a page of one the children of [t_0] are
    answered with [acme-east] alone, without [acme-west]; and after
    [acme-east] was soft-deleted a page of ten holds [acme-west] alone,
    though the row of [acme-east] still names [t_0] as its parent. *)
Lemma tenantList_exact_counterexample :
  ~ listsExactly
      (response (tenantList (scenario.listing (scenario.withID "t_0") 1 0)
                            (scenario.world scenario.db4)))
      scenario.db4 (Some "t_0") /\
  ~ listsExactly
      (response (tenantList (scenario.listing (scenario.withID "t_0") 10 0)
                            (scenario.world scenario.db5)))
      scenario.db5 (Some "t_0").
Proof.
  split; intros (ts & p & Hr & Hiff); vm_compute in Hr;
    inversion Hr; subst; clear Hr.
  - destruct (Hiff scenario.acmeWest) as [_ H].
    destruct H as [H|[]]; [split; vm_compute; auto|discriminate H].
  - destruct (Hiff scenario.acmeEastDeleted) as [_ H].
    destruct H as [H|[]]; [split; vm_compute; auto|discriminate H].
Qed.

(** Deleting [acme] in the scenario of section 8, then getting it. *)
Lemma tenantDelete_soft_deletes_witness :
  let c := scenario.request (scenario.withID "t_0") in
  let run := tenantDelete c (scenario.world scenario.db2) in
  response run = returnNil /\
  map models.ID (memdb.rows (db (after run))) = ["t_0"; "t_1"] /\
  statusCode (response (tenantGet c (after run))) = Some 404 /\
  response (tenantDelete c (after run)) = v1TenantNotFoundResponse ErrNoRows.
Proof.
  intros c run.
  assert (response run = returnNil) as Hok by (vm_compute; reflexivity).
  assert (parseUUID c "id" = ("t_0", None)) as Hparse by reflexivity.
  destruct (tenantDelete_soft_deletes c (scenario.world scenario.db2) "t_0"
                                      Hparse)
    as [Hdone _].
  destruct (Hdone Hok) as (_ & Hids & _ & _ & H404 & Hagain).
  split; [exact Hok|]. split; [exact Hids|]. split; assumption.
Defined.

End api_memdb.

(** ** The predicate combinators *)
Module tenant_facts.

Import sql tenant.

Lemma lowered_id s : not_ s = false -> lowered s = s.
Proof. destruct s; simpl; intros ->; reflexivity. Qed.

Lemma adds_plain p c cn s :
  adds p c cn -> not_ s = false -> p s = Where (Some c) s.
Proof.
  intros Hp Hn. rewrite (Hp s), Hn. fold (lowered s).
  now rewrite lowered_id.
Qed.

(** A predicate that is one [Where] call adds its condition. *)
Lemma Where_adds (p : predicate.Tenant) c :
  (forall s, p s = Where (Some c) s) -> adds p c (PNot (Some c)).
Proof.
  intros Hp s. rewrite Hp. destruct s as [f w o n].
  destruct n, w, o; reflexivity.
Qed.

Lemma Not_adds p c cn : adds p c cn -> adds (Not p) cn cn.
Proof.
  intros Hp s. unfold Not. rewrite (Hp (Selector_Not s)). simpl.
  now destruct (not_ s).
Qed.

(** The loop of [And] over predicates that add conditions. *)
Lemma And_loop ps : forall cs s1,
  Forall2 addsPlain ps cs ->
  not_ s1 = false -> or_ s1 = false ->
  fold_left (fun s1 p => p s1) ps s1 =
  {| from := from s1; where_ := fold_left andStep cs (where_ s1);
     or_ := false; not_ := false |}.
Proof.
  induction ps as [|p ps IH]; intros cs s1 Hall Hn Ho;
    inversion Hall as [|p' c ps' cs' [cn Hp] Hrest]; subst; simpl.
  - destruct s1; simpl in *; subst; reflexivity.
  - rewrite (adds_plain p c cn s1 Hp Hn).
    rewrite (IH cs' _ Hrest).
    + unfold Where. rewrite Hn, Ho. now destruct (where_ s1).
    + unfold Where. rewrite Hn, Ho. now destruct (where_ s1).
    + unfold Where. rewrite Hn, Ho. now destruct (where_ s1).
Qed.

(** The loop of [Or]: from the second predicate on, [Or()] is raised
    before the predicate runs. *)
Lemma Or_loop ps : forall cs i s1,
  Forall2 addsPlain ps cs ->
  not_ s1 = false -> or_ s1 = false ->
  (0 < i -> where_ s1 <> None) ->
  (i = 0 -> where_ s1 = None) ->
  Or_range i ps s1 =
  {| from := from s1; where_ := fold_left orStep cs (where_ s1);
     or_ := false; not_ := false |}.
Proof.
  induction ps as [|p ps IH]; intros cs i s1 Hall Hn Ho Hpos Hzero;
    inversion Hall as [|p' c ps' cs' [cn Hp] Hrest]; subst; simpl.
  - destruct s1; simpl in *; subst; reflexivity.
  - destruct (Nat.ltb_spec 0 i) as [Hi|Hi].
    + rewrite (adds_plain p c cn (Selector_Or s1) Hp) by exact Hn.
      destruct (where_ s1) as [w|] eqn:Hw; [|now elim (Hpos Hi)].
      rewrite (IH cs' (S i) _ Hrest); unfold Where, Selector_Or; simpl;
        rewrite ?Hn, ?Hw; simpl; auto; try discriminate; lia.
    + assert (i = 0) by lia; subst i.
      rewrite (adds_plain p c cn s1 Hp Hn).
      rewrite (IH cs' 1 _ Hrest); unfold Where;
        rewrite ?Hn, ?Ho, ?(Hzero eq_refl); simpl; auto;
        try discriminate; lia.
Qed.

(** [And] and [Or] over predicates that add conditions are one [Where]
    call, with the conjunction (disjunction) of the conditions. *)
Lemma And_Where ps cs s :
  Forall2 addsPlain ps cs ->
  And ps s = Where (fold_left andStep cs None) s.
Proof.
  intro Hall. unfold And. now rewrite (And_loop ps cs _ Hall).
Qed.

Lemma Or_Where ps cs s :
  Forall2 addsPlain ps cs ->
  Or ps s = Where (fold_left orStep cs None) s.
Proof.
  intro Hall. unfold Or.
  rewrite (Or_loop ps cs 0 _ Hall); simpl; auto. lia.
Qed.

(** What is folded from a first condition on is a condition. *)
Lemma andStep_Some cs : forall w,
  exists C, fold_left andStep cs (Some w) = Some C.
Proof.
  induction cs as [|c cs IH]; intro w; simpl; eauto.
Qed.

Lemma orStep_Some cs : forall w,
  exists C, fold_left orStep cs (Some w) = Some C.
Proof.
  induction cs as [|c cs IH]; intro w; simpl; eauto.
Qed.

Lemma conditional_all ps :
  Forall conditional ps -> exists cs, Forall2 addsPlain ps cs.
Proof.
  induction 1 as [|p ps (c & cn & Hp) _ (cs & IH)].
  - exists []. constructor.
  - exists (c :: cs). constructor; [now exists cn|exact IH].
Qed.

(** The predicates that add a condition are closed under [Not] and
    under [And] and [Or] of one predicate or more. *)
Lemma Not_conditional p : conditional p -> conditional (Not p).
Proof.
  intros (c & cn & Hp). exists cn, cn. exact (Not_adds p c cn Hp).
Qed.

Lemma And_conditional p ps :
  Forall conditional (p :: ps) -> conditional (And (p :: ps)).
Proof.
  intro Hall. destruct (conditional_all _ Hall) as (cs & Hcs).
  inversion Hcs as [|? c ? cs' _ _]; subst.
  destruct (andStep_Some cs' c) as (C & HC).
  exists C, (PNot (Some C)). apply Where_adds. intro s.
  rewrite (And_Where _ _ s Hcs). simpl. unfold andStep at 2.
  now rewrite HC.
Qed.

Lemma Or_conditional p ps :
  Forall conditional (p :: ps) -> conditional (Or (p :: ps)).
Proof.
  intro Hall. destruct (conditional_all _ Hall) as (cs & Hcs).
  inversion Hcs as [|? c ? cs' _ _]; subst.
  destruct (orStep_Some cs' c) as (C & HC).
  exists C, (PNot (Some C)). apply Where_adds. intro s.
  rewrite (Or_Where _ _ s Hcs). simpl. unfold orStep at 2.
  now rewrite HC.
Qed.

(** Every field predicate is one [Where] call. *)
Lemma Where_conditional c : conditional (Where (Some c)).
Proof.
  exists c, (PNot (Some c)). now apply Where_adds.
Qed.

(** *** Associativity *)

Lemma tand_assoc a b c : tand a (tand b c) = tand (tand a b) c.
Proof. now destruct a, b, c. Qed.

Lemma tor_assoc a b c : tor a (tor b c) = tor (tor a b) c.
Proof. now destruct a, b, c. Qed.

Lemma eval_PAnd_assoc a b c t :
  eval (PAnd a (Some (PAnd b (Some c)))) t =
  eval (PAnd (PAnd a (Some b)) (Some c)) t.
Proof.
  simpl. destruct (eval a t), (eval b t), (eval c t); simpl; auto.
  now rewrite tand_assoc.
Qed.

Lemma eval_POr_assoc a b c t :
  eval (POr a (Some (POr b (Some c)))) t =
  eval (POr (POr a (Some b)) (Some c)) t.
Proof.
  simpl. destruct (eval a t), (eval b t), (eval c t); simpl; auto.
  now rewrite tor_assoc.
Qed.

(** Conditions that are true of the same rows give the same filter. *)
Lemma matches_Where c1 c2 s t :
  eval c1 t = eval c2 t ->
  matches (Where (Some c1) s) t = matches (Where (Some c2) s) t.
Proof.
  intro H. unfold matches, Where.
  destruct (not_ s), (where_ s), (or_ s); simpl; now rewrite H.
Qed.

Ltac adds_all :=
  repeat first [ apply Forall2_nil
               | apply Forall2_cons; [eexists; eassumption|] ].

(** C8, as amended.  For predicates that each add a condition to the
    query (every field predicate does, and so does every [Not], and
    every [And] and [Or] of one predicate or more, over such
    predicates): [And(p, And(q, r))] and [And(And(p, q), r)] are the
    same filter, and so are [Or(p, Or(q, r))] and [Or(Or(p, q), r)]; and
    what [And], [Or] and [Not] return is again a predicate that adds a
    condition. *)
Theorem And_Or_associative (p q r : predicate.Tenant) :
  conditional p -> conditional q -> conditional r ->
  sameFilter (And [p; And [q; r]]) (And [And [p; q]; r]) /\
  sameFilter (Or [p; Or [q; r]]) (Or [Or [p; q]; r]) /\
  conditional (And [p; q]) /\
  conditional (Or [p; q]) /\
  conditional (Not p).
Proof.
  intros Cp Cq Cr.
  pose proof Cp as (cp & cnp & Hp).
  pose proof Cq as (cq & cnq & Hq).
  pose proof Cr as (cr & cnr & Hr).
  assert (addsPlain (And [q; r]) (PAnd cq (Some cr))) as Hqr.
  { eexists. apply Where_adds. intro s.
    rewrite (And_Where [q; r] [cq; cr]) by adds_all. reflexivity. }
  assert (addsPlain (And [p; q]) (PAnd cp (Some cq))) as Hpq.
  { eexists. apply Where_adds. intro s.
    rewrite (And_Where [p; q] [cp; cq]) by adds_all. reflexivity. }
  assert (addsPlain (Or [q; r]) (POr cq (Some cr))) as Hqr'.
  { eexists. apply Where_adds. intro s.
    rewrite (Or_Where [q; r] [cq; cr]) by adds_all. reflexivity. }
  assert (addsPlain (Or [p; q]) (POr cp (Some cq))) as Hpq'.
  { eexists. apply Where_adds. intro s.
    rewrite (Or_Where [p; q] [cp; cq]) by adds_all. reflexivity. }
  split; [|split; [|split; [|split]]].
  - intros s t.
    rewrite (And_Where [p; And [q; r]] [cp; PAnd cq (Some cr)])
      by (constructor; [eexists; eassumption|constructor; [exact Hqr|constructor]]).
    rewrite (And_Where [And [p; q]; r] [PAnd cp (Some cq); cr])
      by (constructor; [exact Hpq|constructor; [eexists; eassumption|constructor]]).
    simpl fold_left. apply matches_Where, eval_PAnd_assoc.
  - intros s t.
    rewrite (Or_Where [p; Or [q; r]] [cp; POr cq (Some cr)])
      by (constructor; [eexists; eassumption|constructor; [exact Hqr'|constructor]]).
    rewrite (Or_Where [Or [p; q]; r] [POr cp (Some cq); cr])
      by (constructor; [exact Hpq'|constructor; [eexists; eassumption|constructor]]).
    simpl fold_left. apply matches_Where, eval_POr_assoc.
  - apply And_conditional. repeat constructor; assumption.
  - apply Or_conditional. repeat constructor; assumption.
  - now apply Not_conditional.
Qed.

(** Three field predicates: on name, on the parent and on the id. *)
Lemma And_Or_associative_witness :
  sameFilter (And [NameContains "acme"; And [ParentTenantIDIsNil; IDNEQ "t_2"]])
             (And [And [NameContains "acme"; ParentTenantIDIsNil]; IDNEQ "t_2"]) /\
  sameFilter (Or [NameContains "acme"; Or [ParentTenantIDIsNil; IDNEQ "t_2"]])
             (Or [Or [NameContains "acme"; ParentTenantIDIsNil]; IDNEQ "t_2"]).
Proof.
  destruct (And_Or_associative
              (NameContains "acme") ParentTenantIDIsNil (IDNEQ "t_2")
              (Where_conditional _) (Where_conditional _)
              (Where_conditional _)) as (Hand & Hor & _).
  split; assumption.
Defined.

(** C8, as stated, fails: with the empty [And()] for [q], the query of
    [And(p, And(q, r))] selects [acme], while that of
    [And(And(p, q), r)] holds a nil predicate and cannot be built. *)
Lemma And_associative_counterexample :
  ~ (forall p q r : predicate.Tenant,
        sameFilter (And [p; And [q; r]]) (And [And [p; q]; r])).
Proof.
  intro H.
  specialize (H (Name "acme") (And []) ParentTenantIDIsNil
                (Select Table) scenario.acme).
  vm_compute in H. discriminate H.
Qed.

(** *** Double negation *)

(** [Not] only raises the selector's [Not()] flag, which the next
    [Where] takes down: [Not(Not(p))] acts as [Not(p)] on every
    selector, not as [p]. *)
Lemma Not_Not_is_Not (p : predicate.Tenant) :
  (forall s, Not (Not p) s = Not p s) /\
  matches (query [Not (Not (Name "acme"))]) scenario.acme = Some false /\
  matches (query [Name "acme"]) scenario.acme = Some true.
Proof.
  split; [|split; reflexivity].
  intro s. unfold Not. reflexivity.
Qed.

(** *** The empty combinators *)

(** C9, as amended.  [And()] and [Or()] of no predicate are the same
    function on selectors: each passes a nil predicate to [Where].  A
    query with one of them alone, and any selector without a predicate
    and with its [Not()] flag down, is left without a WHERE predicate
    and so matches every tenant. *)
Theorem empty_And_Or_match_all :
  (forall s, And [] s = Or [] s) /\
  (forall t, matches (query [And []]) t = Some true /\
             matches (query [Or []]) t = Some true) /\
  (forall s t, where_ s = None -> not_ s = false ->
               matches (And [] s) t = Some true /\
               matches (Or [] s) t = Some true).
Proof.
  split; [reflexivity|]. split; [intro t; split; reflexivity|].
  intros s t Hw Hn. unfold And, Or, matches, Where. simpl.
  rewrite Hw, Hn. simpl. rewrite ?Hw. auto.
Qed.

(** C9, as stated, fails: the query with the empty [Or()] matches the
    tenant [acme], so it is not a filter that matches no tenant. *)
Lemma empty_Or_counterexample :
  matches (query [Or []]) scenario.acme = Some true /\
  ~ (forall t, matches (query [Or []]) t = Some false).
Proof.
  split; [reflexivity|].
  intro H. specialize (H scenario.acme). discriminate H.
Qed.

End tenant_facts.

(** ** More on the handlers *)
Module api_shape_facts.

Import api api_trace api_shape api_handlers.

Ltac split_trace :=
  repeat match goal with
         | H : [] = ?pre ++ _ :: _ |- _ => destruct pre; discriminate H
         | H : _ :: _ = ?pre ++ _ :: _ |- _ =>
             destruct pre; simpl in H; inversion H; subst; clear H
         end.

Section Shape.

Context {Ctx DB Bus : Type}.
Context {transport : Transport Ctx}.
Context {repository : Repository DB}.
Context {publisher : Publisher Bus}.

(** Listing and getting only read: whatever the outcome, the handler
    asks for no write, submits no event and leaves the world as it
    was. *)
Lemma list_and_get_only_read :
  readOnly (tenantList (Ctx := Ctx) (DB := DB) (Bus := Bus)) /\
  readOnly (tenantGet (Ctx := Ctx) (DB := DB) (Bus := Bus)).
Proof.
  split; intros c w.
  - unfold tenantList. run_handler. all: repeat split; reflexivity.
  - unfold tenantGet. run_handler. all: repeat split; reflexivity.
Qed.

(** A request leads to one write at most: an insert on create, an
    update on update, and on delete a soft delete, never a hard one. *)
Lemma one_write_of_its_kind :
  writesOnce isInsert (tenantCreate (Ctx := Ctx) (DB := DB) (Bus := Bus)) /\
  writesOnce isUpdate (tenantUpdate (Ctx := Ctx) (DB := DB) (Bus := Bus)) /\
  writesOnce isSoftDelete
             (tenantDelete (Ctx := Ctx) (DB := DB) (Bus := Bus)).
Proof.
  split; [|split]; intros c w.
  - unfold tenantCreate. run_handler. all: simpl; split; auto.
  - unfold tenantUpdate. run_handler. all: simpl; split; auto.
  - unfold tenantDelete. run_handler. all: simpl; split; auto.
Qed.

(** An event is submitted only once the write has succeeded, and only
    one: a creation event on create, an update event on update, a
    deletion event on delete, always on [tenants]/[global]. *)
Lemma events_come_after_the_write :
  publishesAfterWrite pubsub.Create
    (tenantCreate (Ctx := Ctx) (DB := DB) (Bus := Bus)) /\
  publishesAfterWrite pubsub.Update
    (tenantUpdate (Ctx := Ctx) (DB := DB) (Bus := Bus)) /\
  publishesAfterWrite pubsub.Delete
    (tenantDelete (Ctx := Ctx) (DB := DB) (Bus := Bus)).
Proof.
  split; [|split]; intros c w pre e post.
  - unfold tenantCreate. run_handler.
    all: unfold trace; simpl; intros Heq Hpub; split_trace.
    all: try discriminate Hpub.
    all: repeat split; eauto.
  - unfold tenantUpdate. run_handler.
    all: unfold trace; simpl; intros Heq Hpub; split_trace.
    all: try discriminate Hpub.
    all: repeat split; eauto.
  - unfold tenantDelete. run_handler.
    all: unfold trace; simpl; intros Heq Hpub; split_trace.
    all: try discriminate Hpub.
    all: repeat split; eauto.
Qed.

(** What is written.  The row inserted carries the name of the request,
    no id of its own and the path id, if any, as its parent; the row
    updated is the row found under the path id with at most its name
    replaced; the row deleted is the row found under the path id, and
    the delete is a soft one.  This holds whether the write succeeds or
    fails. *)
Lemma writes_act_on_the_row_found :
  (forall c w t res,
      In (DBInsert t res)
         (trace (tenantCreate (Ctx := Ctx) (DB := DB) (Bus := Bus) c w)) ->
      exists req,
        bindCreate c = Ok req /\
        models.Name t = createName req /\
        models.ID t = "" /\
        null.Ptr (models.ParentTenantID t) =
          (if String.eqb (fst (parseUUID c "id")) ""
           then None else Some (fst (parseUUID c "id")))) /\
  (forall c w t res,
      In (DBUpdate t res)
         (trace (tenantUpdate (Ctx := Ctx) (DB := DB) (Bus := Bus) c w)) ->
      exists told payload,
        One [models.TenantWhere_ID_EQ (fst (parseUUID c "id"))] (db w) =
          Ok told /\
        bindUpdate c = Ok payload /\
        t = match updateName payload with
            | Some name => models.setName told name
            | None => told
            end) /\
  (forall c w t hard res,
      In (DBDelete t hard res)
         (trace (tenantDelete (Ctx := Ctx) (DB := DB) (Bus := Bus) c w)) ->
      One [models.TenantWhere_ID_EQ (fst (parseUUID c "id"))] (db w) = Ok t /\
      hard = false).
Proof.
  split; [|split]; intros c w.
  - unfold tenantCreate. run_handler.
    all: unfold trace; simpl; intros t res Hin.
    all: repeat (destruct Hin as [Hin|Hin]; try discriminate Hin);
      try contradiction.
    all: inversion Hin; subst; clear Hin.
    all: try match goal with
             | H : false = true |- _ => discriminate H
             | H : true = false |- _ => discriminate H
             end.
    all: eexists; repeat split; reflexivity.
  - unfold tenantUpdate. run_handler.
    all: unfold trace; simpl; intros t res Hin.
    all: repeat (destruct Hin as [Hin|Hin]; try discriminate Hin);
      try contradiction.
    all: inversion Hin; subst; clear Hin.
    all: do 2 eexists; repeat split; try eassumption.
    all: match goal with
         | H : updateName _ = _ |- _ => rewrite H; reflexivity
         end.
  - unfold tenantDelete. run_handler.
    all: unfold trace; simpl; intros t hard res Hin.
    all: repeat (destruct Hin as [Hin|Hin]; try discriminate Hin);
      try contradiction.
    all: inversion Hin; subst; clear Hin.
    all: split; reflexivity.
Qed.

End Shape.

(** *** What an event says *)

Section EventContent.

Context {Ctx DB Bus : Type}.
Context {transport : Transport Ctx}.
Context {repository : Repository DB}.
Context {publisher : Publisher Bus}.

Hypothesis new_builds :
  forall urns, buildsFor (fun a urn => NewTenantMessage a urn urns).
Hypothesis update_builds : buildsFor UpdateTenantMessage.
Hypothesis delete_builds : buildsFor DeleteTenantMessage.

(** With message builders that build for the actor and the resource
    they are given: the event of a create or an update names the actor
    of the request and the URN of the tenant that the response shows,
    with the id that the write returned; the event of a delete names
    the actor and the URN of the tenant found under the path id. *)
Theorem events_name_actor_and_tenant :
  (forall c (w w' : World DB Bus) t tr,
      tenantCreate c w = (v1TenantCreatedResponse t, tr, w') ->
      forall k topic scope m res,
        In (Published k topic scope (Some m) res) tr ->
        pubsub.actor m = Actor c /\
        pubsub.resourceURN m = pubsub.NewTenantURN (models.ID t)) /\
  (forall c (w w' : World DB Bus) t tr,
      tenantUpdate c w = (v1TenantGetResponse t, tr, w') ->
      forall k topic scope m res,
        In (Published k topic scope (Some m) res) tr ->
        pubsub.actor m = Actor c /\
        pubsub.resourceURN m = pubsub.NewTenantURN (models.ID t)) /\
  (forall c (w w' : World DB Bus) tr,
      tenantDelete c w = (returnNil, tr, w') ->
      forall k topic scope m res,
        In (Published k topic scope (Some m) res) tr ->
        exists t,
          One [models.TenantWhere_ID_EQ (fst (parseUUID c "id"))] (db w) =
            Ok t /\
          pubsub.actor m = Actor c /\
          pubsub.resourceURN m = pubsub.NewTenantURN (models.ID t)).
Proof.
  split; [|split]; intros c w w'.
  - intros t tr. unfold tenantCreate. run_handler.
    all: intro Hrun; inversion Hrun; subst; clear Hrun.
    all: intros k topic scope m res Hin.
    all: repeat (destruct Hin as [Hin|Hin]; try discriminate Hin);
      try contradiction.
    all: inversion Hin; subst; clear Hin.
    all: match goal with
         | H : NewTenantMessage _ _ ?urns = _ |- _ =>
             exact (new_builds urns _ _ _ _ H)
         end.
  - intros t tr. unfold tenantUpdate. run_handler.
    all: intro Hrun; inversion Hrun; subst; clear Hrun.
    all: intros k topic scope m res Hin.
    all: repeat (destruct Hin as [Hin|Hin]; try discriminate Hin);
      try contradiction.
    all: inversion Hin; subst; clear Hin.
    all: match goal with
         | H : UpdateTenantMessage _ _ = _ |- _ =>
             exact (update_builds _ _ _ _ H)
         end.
  - intros tr. unfold tenantDelete. run_handler.
    all: intro Hrun; inversion Hrun; subst; clear Hrun.
    all: intros k topic scope m res Hin.
    all: repeat (destruct Hin as [Hin|Hin]; try discriminate Hin);
      try contradiction.
    all: inversion Hin; subst; clear Hin.
    all: eexists; split; [first [eassumption|reflexivity]|].
    all: match goal with
         | H : DeleteTenantMessage _ _ = _ |- _ =>
             exact (delete_builds _ _ _ _ H)
         end.
Qed.

End EventContent.

(** *** The publisher decides nothing *)

Section Publishers.

Context {Ctx DB Bus1 Bus2 : Type}.
Context {transport : Transport Ctx}.
Context {repository : Repository DB}.
Variable p1 : Publisher Bus1.
Variable p2 : Publisher Bus2.

(** The same request on the same store, with any two publishers on any
    two buses: create, update and delete answer alike, leave the same
    store and make the same repository calls.  No failure of message
    building or publishing reaches the caller or the store. *)
Theorem publisher_decides_nothing (c : Ctx) (d : DB) (b1 : Bus1) (b2 : Bus2) :
  sameOutcome (tenantCreate (publisher := p1) c {| db := d; bus := b1 |})
              (tenantCreate (publisher := p2) c {| db := d; bus := b2 |}) /\
  sameOutcome (tenantUpdate (publisher := p1) c {| db := d; bus := b1 |})
              (tenantUpdate (publisher := p2) c {| db := d; bus := b2 |}) /\
  sameOutcome (tenantDelete (publisher := p1) c {| db := d; bus := b1 |})
              (tenantDelete (publisher := p2) c {| db := d; bus := b2 |}).
Proof.
  unfold sameOutcome. split; [|split].
  - unfold tenantCreate. run_handler. all: repeat split; reflexivity.
  - unfold tenantUpdate. run_handler. all: repeat split; reflexivity.
  - unfold tenantDelete. run_handler. all: repeat split; reflexivity.
Qed.

End Publishers.

End api_shape_facts.

(** ** What the combinators select *)
Module tenant_sem_facts.

Import sql tenant tenant_sem tenant_facts.

Lemma tand_true_r a : tand a TrueT = a.
Proof. now destruct a. Qed.

Lemma tor_false_r a : tor a FalseT = a.
Proof. now destruct a. Qed.

Lemma lift2_tand_assoc a b c :
  lift2 tand a (lift2 tand b c) = lift2 tand (lift2 tand a b) c.
Proof.
  destruct a, b, c; simpl; auto. now rewrite tand_assoc.
Qed.

Lemma lift2_tor_assoc a b c :
  lift2 tor a (lift2 tor b c) = lift2 tor (lift2 tor a b) c.
Proof.
  destruct a, b, c; simpl; auto. now rewrite tor_assoc.
Qed.

(** The conditions folded by [Where], evaluated. *)
Lemma eval_andStep cs t : forall w,
  exists C, fold_left andStep cs (Some w) = Some C /\
            eval C t = lift2 tand (eval w t) (allOf (map (fun c => eval c t) cs)).
Proof.
  induction cs as [|c cs IH]; intro w; simpl.
  - exists w. split; auto. destruct (eval w t); simpl; auto.
    now rewrite tand_true_r.
  - destruct (IH (PAnd w (Some c))) as (C & HC & HE).
    exists C. split; auto. rewrite HE. simpl.
    rewrite lift2_tand_assoc.
    now destruct (eval w t), (eval c t).
Qed.

Lemma eval_orStep cs t : forall w,
  exists C, fold_left orStep cs (Some w) = Some C /\
            eval C t = lift2 tor (eval w t) (anyOf (map (fun c => eval c t) cs)).
Proof.
  induction cs as [|c cs IH]; intro w; simpl.
  - exists w. split; auto. destruct (eval w t); simpl; auto.
    now rewrite tor_false_r.
  - destruct (IH (POr w (Some c))) as (C & HC & HE).
    exists C. split; auto. rewrite HE. simpl.
    rewrite lift2_tor_assoc.
    now destruct (eval w t), (eval c t).
Qed.

(** On a new query a predicate that adds [c] leaves [c] as the
    condition. *)
Lemma condition_adds p c table :
  addsPlain p c -> condition p table = Some c.
Proof.
  intros (cn & Hp). unfold condition.
  now rewrite (adds_plain p c cn (Select table) Hp eq_refl).
Qed.

Lemma truth_adds p c table t :
  addsPlain p c -> truth p table t = eval c t.
Proof.
  intro Hp. unfold truth. now rewrite (condition_adds p c table Hp).
Qed.

Lemma truths_adds ps cs table t :
  Forall2 addsPlain ps cs ->
  map (fun p => truth p table t) ps = map (fun c => eval c t) cs.
Proof.
  induction 1 as [|p c ps cs Hp _ IH]; simpl; auto.
  now rewrite IH, (truth_adds p c table t Hp).
Qed.

Lemma matches_truth (p : predicate.Tenant) table t :
  matches (p (Select table)) t = option_map isTrue (truth p table t).
Proof.
  unfold matches, truth, condition. now destruct (where_ _).
Qed.

Lemma allOf_true vs :
  allOf vs = Some TrueT <-> forall v, In v vs -> v = Some TrueT.
Proof.
  induction vs as [|v vs IH]; simpl.
  - split; auto. intros _ v [].
  - split.
    + intros H. destruct v as [[| |]|], (allOf vs) as [[| |]|];
        try discriminate.
      intros x [<-|Hx]; auto. now apply IH.
    + intro H. rewrite (H v (or_introl eq_refl)).
      rewrite (proj2 IH); auto.
Qed.

Lemma anyOf_None vs : anyOf vs = None <-> In None vs.
Proof.
  induction vs as [|v vs IH]; simpl.
  - split; [discriminate|intros []].
  - destruct v as [x|]; simpl.
    + destruct (anyOf vs) as [y|]; simpl.
      * split; [discriminate|].
        intros [H|H]; [discriminate|]. apply IH in H. discriminate.
      * split; auto. intros _. right. now apply IH.
    + split; auto.
Qed.

Lemma anyOf_true vs :
  anyOf vs = Some TrueT <-> ~ In None vs /\ In (Some TrueT) vs.
Proof.
  induction vs as [|v vs IH]; simpl.
  - split; [discriminate|]. now intros [_ []].
  - destruct v as [x|]; simpl.
    + destruct (anyOf vs) as [y|] eqn:E; simpl.
      * assert (~ In None vs) as Hdef.
        { intro H. apply anyOf_None in H. congruence. }
        split.
        -- intro H. split; [intros [Hn|Hn]; [discriminate|auto]|].
           destruct x; try (now left).
           ++ right. apply IH. destruct y; try discriminate. reflexivity.
           ++ right. apply IH. destruct y; try discriminate. reflexivity.
        -- intros [_ [Hx|Hin]].
           ++ inversion Hx. now destruct y.
           ++ assert (Some y = Some TrueT) as Hy by (apply IH; auto).
              inversion Hy. now destruct x.
      * split; [discriminate|].
        intros [Hdef _]. exfalso. apply Hdef. right. now apply anyOf_None.
    + split; [discriminate|]. intros [Hdef _]. exfalso. apply Hdef. now left.
Qed.

Lemma matches_true (p : predicate.Tenant) table t :
  matches (p (Select table)) t = Some true <-> truth p table t = Some TrueT.
Proof.
  rewrite matches_truth. destruct (truth p table t) as [[| |]|]; simpl;
    split; congruence.
Qed.

Lemma matches_defined (p : predicate.Tenant) table t :
  matches (p (Select table)) t <> None <-> truth p table t <> None.
Proof.
  rewrite matches_truth. destruct (truth p table t); simpl;
    split; congruence.
Qed.

(** The truth value of [And], [Or] and [Not] from those of their
    parts. *)
Lemma truth_And ps table t :
  Forall conditional ps ->
  truth (And ps) table t = allOf (map (fun p => truth p table t) ps).
Proof.
  intro Hall. destruct (conditional_all ps Hall) as (cs & Hcs).
  rewrite (truths_adds ps cs table t Hcs).
  unfold truth, condition. rewrite (And_Where ps cs _ Hcs).
  destruct cs as [|c cs]; [reflexivity|]. simpl fold_left.
  unfold andStep at 2.
  destruct (eval_andStep cs t c) as (C & HC & HE).
  rewrite HC. simpl. exact HE.
Qed.

Lemma truth_Or ps table t :
  ps <> [] ->
  Forall conditional ps ->
  truth (Or ps) table t = anyOf (map (fun p => truth p table t) ps).
Proof.
  intros Hne Hall. destruct (conditional_all ps Hall) as (cs & Hcs).
  rewrite (truths_adds ps cs table t Hcs).
  unfold truth, condition. rewrite (Or_Where ps cs _ Hcs).
  destruct cs as [|c cs]; [inversion Hcs; subst; now elim Hne|].
  simpl fold_left. unfold orStep at 2.
  destruct (eval_orStep cs t c) as (C & HC & HE).
  rewrite HC. simpl. exact HE.
Qed.

Lemma truth_Not p table t :
  regular p ->
  truth (Not p) table t = option_map tnot (truth p table t).
Proof.
  intros (c & Hp).
  rewrite (truth_adds p c table t (ex_intro _ _ Hp)).
  unfold truth, condition, Not. rewrite (Hp (Selector_Not (Select table))).
  reflexivity.
Qed.

Lemma regular_conditional p : regular p -> conditional p.
Proof. intros (c & Hp). now exists c, (PNot (Some c)). Qed.

Lemma Where_regular c : regular (Where (Some c)).
Proof. exists c. now apply Where_adds. Qed.

Lemma And_regular p ps :
  Forall conditional (p :: ps) -> regular (And (p :: ps)).
Proof.
  intro Hall. destruct (conditional_all _ Hall) as (cs & Hcs).
  inversion Hcs as [|? c ? cs' _ _]; subst.
  destruct (andStep_Some cs' c) as (C & HC).
  exists C. apply Where_adds. intro s.
  rewrite (And_Where _ _ s Hcs). simpl. unfold andStep at 2.
  now rewrite HC.
Qed.

Lemma Or_regular p ps :
  Forall conditional (p :: ps) -> regular (Or (p :: ps)).
Proof.
  intro Hall. destruct (conditional_all _ Hall) as (cs & Hcs).
  inversion Hcs as [|? c ? cs' _ _]; subst.
  destruct (orStep_Some cs' c) as (C & HC).
  exists C. apply Where_adds. intro s.
  rewrite (Or_Where _ _ s Hcs). simpl. unfold orStep at 2.
  now rewrite HC.
Qed.

(** *** Conjunction, disjunction, negation *)

(** [And] over predicates that add conditions, on a new query: its
    truth value on a row is SQL's conjunction of the truth values of the
    predicates, so it selects exactly the rows that every one of them
    selects. *)
Theorem And_selects_what_all_select
        (ps : list predicate.Tenant) (table : string) (t : models.Tenant) :
  Forall conditional ps ->
  truth (And ps) table t = allOf (map (fun p => truth p table t) ps) /\
  (matches (And ps (Select table)) t = Some true <->
   forall p, In p ps -> matches (p (Select table)) t = Some true).
Proof.
  intro Hall. split; [now apply truth_And|].
  rewrite matches_true, (truth_And ps table t Hall), allOf_true.
  split.
  - intros H p Hp. apply matches_true. apply H.
    apply in_map_iff. now exists p.
  - intros H v Hv. apply in_map_iff in Hv. destruct Hv as (p & <- & Hp).
    apply matches_true. now apply H.
Qed.

(** [Or] over one or more predicates that add conditions, on a new
    query: its truth value on a row is SQL's disjunction of theirs, so
    it selects a row exactly when every one of them can be built and one
    of them selects the row. *)
Theorem Or_selects_what_one_selects
        (ps : list predicate.Tenant) (table : string) (t : models.Tenant) :
  ps <> [] ->
  Forall conditional ps ->
  truth (Or ps) table t = anyOf (map (fun p => truth p table t) ps) /\
  (matches (Or ps (Select table)) t = Some true <->
   (forall p, In p ps -> matches (p (Select table)) t <> None) /\
   exists p, In p ps /\ matches (p (Select table)) t = Some true).
Proof.
  intros Hne Hall. split; [now apply truth_Or|].
  rewrite matches_true, (truth_Or ps table t Hne Hall), anyOf_true.
  split.
  - intros [Hdef Hin]. split.
    + intros p Hp. apply matches_defined. intro Hn. apply Hdef.
      apply in_map_iff. now exists p.
    + apply in_map_iff in Hin. destruct Hin as (p & Hv & Hp).
      exists p. split; auto. now apply matches_true.
  - intros [Hdef (p & Hp & Hm)]. split.
    + intro Hn. apply in_map_iff in Hn. destruct Hn as (q & Hq & Hin).
      now apply (proj1 (matches_defined q table t) (Hdef q Hin)).
    + apply in_map_iff. exists p. split; auto. now apply matches_true.
Qed.

(** [Not] over a field predicate, or over an [And] or [Or] of
    predicates that add conditions, on a new query: its truth value is
    SQL's negation, so it selects exactly the rows on which the
    condition is false -- not those on which it is unknown -- and a row
    is never selected by both [p] and [Not(p)]. *)
Theorem Not_selects_where_false
        (p : predicate.Tenant) (table : string) (t : models.Tenant) :
  regular p ->
  truth (Not p) table t = option_map tnot (truth p table t) /\
  (matches (Not p (Select table)) t = Some true <->
   truth p table t = Some FalseT) /\
  ~ (matches (p (Select table)) t = Some true /\
     matches (Not p (Select table)) t = Some true).
Proof.
  intro Hp. pose proof (truth_Not p table t Hp) as HN.
  split; [exact HN|].
  rewrite !matches_true, HN.
  destruct (truth p table t) as [[| |]|]; simpl;
    split; try split; try congruence; intros [? ?]; congruence.
Qed.

(** *** Laws *)

(** On a new query, for predicates that add conditions: [And] and [Or]
    do not depend on the order of two predicates, repeating a predicate
    changes nothing, and each distributes over the other, so a group
    nested in the other combinator keeps its grouping. *)
Theorem And_Or_lattice_laws
        (p q r : predicate.Tenant) (table : string) (t : models.Tenant) :
  conditional p -> conditional q -> conditional r ->
  truth (And [p; q]) table t = truth (And [q; p]) table t /\
  truth (Or [p; q]) table t = truth (Or [q; p]) table t /\
  truth (And [p; p]) table t = truth p table t /\
  truth (Or [p; p]) table t = truth p table t /\
  truth (And [p; Or [q; r]]) table t =
    truth (Or [And [p; q]; And [p; r]]) table t /\
  truth (Or [p; And [q; r]]) table t =
    truth (And [Or [p; q]; Or [p; r]]) table t.
Proof.
  intros Cp Cq Cr.
  assert (conditional (Or [q; r])) as Cqr'
      by (apply Or_conditional; repeat constructor; assumption).
  assert (conditional (And [q; r])) as Cqr
      by (apply And_conditional; repeat constructor; assumption).
  assert (conditional (And [p; q])) as Cpq
      by (apply And_conditional; repeat constructor; assumption).
  assert (conditional (And [p; r])) as Cpr
      by (apply And_conditional; repeat constructor; assumption).
  assert (conditional (Or [p; q])) as Cpq'
      by (apply Or_conditional; repeat constructor; assumption).
  assert (conditional (Or [p; r])) as Cpr'
      by (apply Or_conditional; repeat constructor; assumption).
  repeat (simpl;
          first [ rewrite truth_And by (repeat constructor; assumption)
                | rewrite truth_Or
                    by (try discriminate; repeat constructor; assumption) ]).
  simpl.
  destruct (truth p table t) as [[| |]|], (truth q table t) as [[| |]|],
    (truth r table t) as [[| |]|]; repeat split; reflexivity.
Qed.

(** De Morgan, on a new query, for field predicates and for [And]s and
    [Or]s of predicates that add conditions: the negation of a
    conjunction is the disjunction of the negations, and dually. *)
Theorem Not_De_Morgan
        (p q : predicate.Tenant) (table : string) (t : models.Tenant) :
  regular p -> regular q ->
  truth (Not (And [p; q])) table t = truth (Or [Not p; Not q]) table t /\
  truth (Not (Or [p; q])) table t = truth (And [Not p; Not q]) table t.
Proof.
  intros Rp Rq.
  pose proof (regular_conditional p Rp) as Cp.
  pose proof (regular_conditional q Rq) as Cq.
  pose proof (Not_conditional p Cp) as Np.
  pose proof (Not_conditional q Cq) as Nq.
  rewrite (truth_Not (And [p; q]))
    by (apply And_regular; repeat constructor; assumption).
  rewrite (truth_Not (Or [p; q]))
    by (apply Or_regular; repeat constructor; assumption).
  repeat (simpl;
          first [ rewrite truth_And by (repeat constructor; assumption)
                | rewrite truth_Or
                    by (try discriminate; repeat constructor; assumption) ]).
  simpl. rewrite !truth_Not by assumption.
  destruct (truth p table t) as [[| |]|], (truth q table t) as [[| |]|];
    split; reflexivity.
Qed.

(** *** The selector the combinators are applied to *)

(** Whatever the predicates given to [And] or [Or] do -- they run on a
    clone -- the selector they are applied to keeps its table, and a
    condition [w] that it already has stays in place as the left
    operand of the new one. *)
Lemma And_Or_keep_the_selector
      (ps : list predicate.Tenant) (s : Selector) :
  from (And ps s) = from s /\
  from (Or ps s) = from s /\
  (forall w, where_ s = Some w ->
     exists x, where_ (And ps s) = Some (if or_ s then POr w x else PAnd w x)) /\
  (forall w, where_ s = Some w ->
     exists x, where_ (Or ps s) = Some (if or_ s then POr w x else PAnd w x)).
Proof.
  unfold And, Or, Where.
  repeat split; try (destruct (where_ s), (or_ s); reflexivity).
  - intros w ->. destruct (or_ s); eexists; reflexivity.
  - intros w ->. destruct (or_ s); eexists; reflexivity.
Qed.

(** An [And()] or [Or()] of no predicate hands [Where] a nil predicate:
    applied to a selector that already has a condition it leaves a
    query that cannot be built, and so does its negation on any
    selector. *)
Lemma empty_combinator_breaks_the_query (s : Selector) (t : models.Tenant) :
  (where_ s <> None ->
   matches (And [] s) t = None /\ matches (Or [] s) t = None) /\
  matches (Not (And []) s) t = None /\
  matches (Not (Or []) s) t = None.
Proof.
  unfold Not, And, Or, matches, Where. simpl.
  destruct s as [f [w|] o n]; simpl.
  - split; [intros _|]; destruct n, o; simpl;
      destruct (eval w t); split; reflexivity.
  - split; [intro H; now elim H|]. split; reflexivity.
Qed.

End tenant_sem_facts.

(** ** Instances of the properties above *)
Module more_instances.

Import api api_trace api_shape api_handlers api_shape_facts api_memdb.

Lemma script_builds urns :
  buildsFor (fun a urn => script.message a urn urns).
Proof.
  intros a urn m e H. unfold script.message in H.
  inversion H; subst. split; reflexivity.
Qed.

(** The event of creating the root [acme] names the actor of the
    request and the tenant [t_0] that the response shows. *)
Lemma events_name_actor_and_tenant_witness :
  let c := scenario.create scenario.noID "acme" in
  let run := tenantCreate c (scenario.world memdb.empty) in
  exists m,
    published (trace run) =
      [Published pubsub.Create "tenants" "global" (Some m) None] /\
    pubsub.actor m = "urn:infratographer:user:alice" /\
    pubsub.resourceURN m = "urn:infratographer:tenant:t_0".
Proof.
  intros c run.
  pose (m := {| pubsub.actor := "urn:infratographer:user:alice";
                pubsub.resourceURN := "urn:infratographer:tenant:t_0";
                pubsub.additionalURNs := [] |}).
  assert (response run =
          v1TenantCreatedResponse (memdb.stamp (models.withName "acme") "t_0" 1))
    as Hr by (vm_compute; reflexivity).
  pose proof (run_parts run) as Hrun. rewrite Hr in Hrun.
  assert (In (Published pubsub.Create "tenants" "global" (Some m) None)
             (trace run)) as Hin by (vm_compute; auto).
  destruct (events_name_actor_and_tenant
              (Ctx := script.Request) (DB := memdb.DB) (Bus := script.Bus)
              (transport := script.transport)
              (repository := memdb.repository)
              (publisher := script.publisher)
              script_builds (script_builds []) (script_builds []))
    as (Hcreate & _).
  destruct (Hcreate c _ _ _ _ Hrun _ _ _ _ _ Hin) as (Ha & Hu).
  exists m. split; [vm_compute; reflexivity|]. split; assumption.
Defined.

End more_instances.

(** ** Instances for the combinators *)
Module tenant_instances.

Import sql tenant tenant_sem tenant_facts tenant_sem_facts.

(** Tenants named like [acme] that have no parent. *)
Lemma And_selects_what_all_select_witness :
  let ps := [NameContains "acme"; ParentTenantIDIsNil] in
  (matches (And ps (Select Table)) scenario.acme = Some true <->
   forall p, In p ps -> matches (p (Select Table)) scenario.acme = Some true) /\
  matches (And ps (Select Table)) scenario.acme = Some true /\
  matches (And ps (Select Table)) scenario.acmeEast = Some false.
Proof.
  intro ps.
  destruct (And_selects_what_all_select ps Table scenario.acme) as [_ H].
  { repeat constructor; apply Where_conditional. }
  split; [exact H|]. split; reflexivity.
Defined.

(** Tenants named [globex] or below [t_0]. *)
Lemma Or_selects_what_one_selects_witness :
  let ps := [Name "globex"; ParentTenantID "t_0"] in
  (matches (Or ps (Select Table)) scenario.acmeEast = Some true <->
   (forall p, In p ps ->
              matches (p (Select Table)) scenario.acmeEast <> None) /\
   exists p, In p ps /\
             matches (p (Select Table)) scenario.acmeEast = Some true) /\
  matches (Or ps (Select Table)) scenario.acmeEast = Some true.
Proof.
  intro ps.
  destruct (Or_selects_what_one_selects ps Table scenario.acmeEast) as [_ H].
  { discriminate. }
  { repeat constructor; apply Where_conditional. }
  split; [exact H|reflexivity].
Defined.

(** The root [acme] has no parent: it is selected neither by the
    predicate "parent is [t_0]" nor by its negation. *)
Lemma Not_selects_where_false_witness :
  truth (ParentTenantID "t_0") Table scenario.acme = Some Unknown /\
  matches (ParentTenantID "t_0" (Select Table)) scenario.acme = Some false /\
  matches (Not (ParentTenantID "t_0") (Select Table)) scenario.acme =
    Some false /\
  matches (Not (ParentTenantID "t_0") (Select Table)) scenario.globex =
    Some false /\
  (matches (Not (Name "acme") (Select Table)) scenario.globex = Some true <->
   truth (Name "acme") Table scenario.globex = Some FalseT).
Proof.
  destruct (Not_selects_where_false (Name "acme") Table scenario.globex
                                    (Where_regular _)) as (_ & H & _).
  repeat split; try reflexivity; apply H.
Defined.

Lemma And_Or_lattice_laws_witness :
  truth (And [NameContains "acme"; Or [ParentTenantIDIsNil; IDEQ "t_1"]])
        Table scenario.acmeEast =
  truth (Or [And [NameContains "acme"; ParentTenantIDIsNil];
             And [NameContains "acme"; IDEQ "t_1"]])
        Table scenario.acmeEast.
Proof.
  destruct (And_Or_lattice_laws
              (NameContains "acme") ParentTenantIDIsNil (IDEQ "t_1")
              Table scenario.acmeEast
              (Where_conditional _) (Where_conditional _)
              (Where_conditional _)) as (_ & _ & _ & _ & H & _).
  exact H.
Defined.

Lemma Not_De_Morgan_witness :
  truth (Not (And [NameContains "acme"; ParentTenantIDIsNil]))
        Table scenario.acmeEast =
  truth (Or [Not (NameContains "acme"); Not ParentTenantIDIsNil])
        Table scenario.acmeEast.
Proof.
  destruct (Not_De_Morgan (NameContains "acme") ParentTenantIDIsNil
                          Table scenario.acmeEast
                          (Where_regular _) (Where_regular _)) as (H & _).
  exact H.
Defined.

End tenant_instances.

(** ** More on the outward representation *)
Module api_repr_more.

Import api api_repr.

(** [v1TenantSlice] is [v1Tenant] on every element: the list it returns
    has no nil slot, and the representation of two lists one after the
    other is that of the first followed by that of the second. *)
Lemma v1TenantSlice_has_no_nil_slot :
  (forall ts, v1TenantSlice ts = map (fun t => Some (v1Tenant t)) ts) /\
  (forall ts, ~ In None (v1TenantSlice ts)) /\
  (forall a b, v1TenantSlice (a ++ b) = v1TenantSlice a ++ v1TenantSlice b).
Proof.
  assert (forall ts, v1TenantSlice ts = map (fun t => Some (v1Tenant t)) ts)
    as Hmap.
  { intro ts. apply nth_error_ext. intro i. unfold v1TenantSlice.
    destruct (v1TenantSlice_range_spec ts 0 (repeat None (List.length ts)))
      as [_ HN].
    { now rewrite repeat_length. }
    rewrite HN, nth_error_map. simpl. now rewrite Nat.sub_0_r. }
  split; [exact Hmap|]. split.
  - intros ts H. rewrite Hmap in H. apply in_map_iff in H.
    destruct H as (t & Ht & _). discriminate Ht.
  - intros a b. rewrite !Hmap. apply map_app.
Qed.

End api_repr_more.

(** ** The test server *)
Module testutil_facts.

Import testutil.

(** [newTestServer] hands out a server exactly when none of its six
    fallible steps fails.  The server then has its HTTP server set and
    two close functions, and [close] runs them in the order of their
    registration: it stops the database server, then closes the HTTP
    server, each once.  [close] on a nil server does nothing. *)
Theorem newTestServer_and_close (env : Outcomes) :
  ((exists ts, value (newTestServer env) = Some (Some ts, None)) <->
   buildErr env = None /\ startErr env = None /\ laterErr env = None) /\
  (forall ts e, value (newTestServer env) = Some (Some ts, e) ->
     e = None /\
     Server ts = Some httptestServer /\
     List.length (closeFns ts) = 2 /\
     close (Some ts) =
       (Some tt, [Stop; HTTPClose (Some httptestServer)])) /\
  close None = (Some tt, []).
Proof.
  unfold newTestServer, laterErr, close.
  destruct env as [b s i d dl u n]; simpl.
  split; [|split; [|reflexivity]].
  - destruct b, s, i, d, dl, u, n; simpl; split;
      try (intros [ts H]; discriminate H);
      try (intros (H1 & H2 & H3); discriminate);
      try (intros _; eexists; reflexivity);
      try (intros _; repeat split; reflexivity).
  - intros ts e.
    destruct b, s, i, d, dl, u, n; simpl; intro H;
      try discriminate H; inversion H; subst; clear H;
      repeat split; reflexivity.
Qed.

(** Once the database server has started, a failure of a later step
    (waiting for it, opening the database, the goose dialect, the
    migrations) makes [newTestServer] call [Close] of the embedded HTTP
    server, which is still nil, and not its own [close].  So the
    database server is not stopped: [Stop] is never called, no step
    after the failing one runs, and no server is handed out -- the
    caller gets nil with the error of the step, unless [Close] on nil
    panics. *)
Theorem newTestServer_failure_leaves_database_running
        (env : Outcomes) (e : error) :
  buildErr env = None ->
  startErr env = None ->
  laterErr env = Some e ->
  In NewTestServer (calls (newTestServer env)) /\
  filter isStop (calls (newTestServer env)) = [] /\
  (exists pre, calls (newTestServer env) = pre ++ [HTTPClose None]) /\
  value (newTestServer env) =
    (if nilClosePanics env then None else Some (None, Some e)).
Proof.
  unfold newTestServer, laterErr.
  destruct env as [b s i d dl u n]; simpl.
  intros -> -> H.
  destruct i, d, dl, u, n; simpl in *;
    inversion H; subst; clear H;
    (split; [auto|split; [reflexivity|split; [|reflexivity]]]).
  all: match goal with
       | |- exists pre, ?l = _ =>
           exists (removelast l); reflexivity
       end.
Qed.

(** The migrations fail after the database server has started. *)
Lemma newTestServer_failure_leaves_database_running_witness :
  calls (newTestServer badMigration) =
    [LoggerBuild; NewTestServer; WaitForInit; PGURL; NewDB; SetBaseFS;
     SetDialect; Up; HTTPClose None] /\
  filter isStop (calls (newTestServer badMigration)) = [] /\
  value (newTestServer badMigration) = None.
Proof.
  destruct (newTestServer_failure_leaves_database_running
              badMigration (ErrorString "migration failed")
              eq_refl eq_refl eq_refl) as (_ & Hstop & _ & Hval).
  split; [reflexivity|]. split; [exact Hstop|exact Hval].
Defined.

End testutil_facts.
